(** * Article enrichment ([scripts/enrich-articles.py]): a shallow embedding

    The development follows the script top-down: Python's string and slice
    primitives, the domain classifier [get_domain], the text extractor, the
    content fetcher [fetch_full_text] and the orchestrator [enrich_articles]
    with its batch selection.  Library code the script calls ([urlparse],
    [urlopen], [gzip], the HTML tokenizer, the thread pool's completion
    order) is taken as a parameter of the definitions that use it. *)

From Stdlib Require Import ZArith Ascii String Strings.Byte List Sorting.Sorted Permutation.
From stdpp Require Import gmap strings list fin_maps sorting.

Local Open Scope string_scope.
Local Open Scope Z_scope.

(** ** Python primitives *)

Module Py.

(** [len(s)] as a Python integer. *)
Definition len (s : string) : Z := Z.of_nat (String.length s).

(** [s[:n]] for a Python integer [n]: a negative bound counts from the end,
    and every bound is clamped to the string. *)
Definition slice_to (n : Z) (s : string) : string :=
  if 0 <=? n then String.substring 0 (Z.to_nat n) s
  else String.substring 0 (Z.to_nat (len s + n)) s.

(** [l[:n]] on a list, same convention. *)
Definition list_slice_to {A} (n : Z) (l : list A) : list A :=
  if 0 <=? n then take (Z.to_nat n) l
  else take (Z.to_nat (Z.of_nat (length l) + n)) l.

(** [c in chars] for a character. *)
Fixpoint char_in (c : ascii) (chars : string) : bool :=
  match chars with
  | EmptyString => false
  | String d rest => if Ascii.eqb c d then true else char_in c rest
  end.

(** [s.lstrip(chars)]: drops every leading character that occurs in [chars]
    (the argument is a set of characters, not a prefix). *)
Fixpoint lstrip (chars : string) (s : string) : string :=
  match s with
  | EmptyString => EmptyString
  | String c rest => if char_in c chars then lstrip chars rest else s
  end.

(** [s.lower()] on the characters a [string] holds (code points 0..255). *)
Definition lower_char (c : ascii) : ascii :=
  let n := N_of_ascii c in
  if ((65 <=? n) && (n <=? 90))%N then ascii_of_N (n + 32)
  else if ((192 <=? n) && (n <=? 222) && negb (n =? 215))%N then ascii_of_N (n + 32)
  else c.

Fixpoint lower (s : string) : string :=
  match s with
  | EmptyString => EmptyString
  | String c rest => String (lower_char c) (lower rest)
  end.

(** [s.startswith(p)] and [p in s]. *)
Fixpoint startswith (p s : string) : bool :=
  match p, s with
  | EmptyString, _ => true
  | String _ _, EmptyString => false
  | String a p', String b s' => Ascii.eqb a b && startswith p' s'
  end.

Fixpoint contains (p s : string) : bool :=
  startswith p s ||
  match s with
  | EmptyString => false
  | String _ s' => contains p s'
  end.

(** [s.isdigit()]: non-empty and every character a digit.  Besides 0-9 the
    code points below 256 that Python counts as digits are the superscripts
    U+00B2, U+00B3 and U+00B9. *)
Definition is_decimal (c : ascii) : bool :=
  let n := N_of_ascii c in ((48 <=? n) && (n <=? 57))%N.

Definition is_digit_char (c : ascii) : bool :=
  let n := N_of_ascii c in
  is_decimal c || (n =? 178)%N || (n =? 179)%N || (n =? 185)%N.

Fixpoint all_chars (p : ascii -> bool) (s : string) : bool :=
  match s with
  | EmptyString => true
  | String c rest => p c && all_chars p rest
  end.

Definition isdigit (s : string) : bool :=
  match s with
  | EmptyString => false
  | _ => all_chars is_digit_char s
  end.

(** [int(s)] on a string that passed [isdigit]: the decimal value, or
    [None] for the [ValueError] raised on a digit that is not decimal and on
    a literal of more than [max_str_digits] digits (leading zeros count). *)
Fixpoint int_acc (acc : Z) (s : string) : option Z :=
  match s with
  | EmptyString => Some acc
  | String c rest =>
      if is_decimal c
      then int_acc (10 * acc + Z.of_N (N_of_ascii c - 48)) rest
      else None
  end.

(** [sys.int_info.default_max_str_digits] *)
Definition max_str_digits : nat := 4300.

Definition int (s : string) : option Z :=
  match s with
  | EmptyString => None
  | _ =>
      if (max_str_digits <? String.length s)%nat then None else int_acc 0 s
  end.

(** [str(n)] for an integer. *)
Definition digit_char (d : Z) : ascii := ascii_of_N (Z.to_N (48 + d)).

Fixpoint str_nat_fuel (fuel : nat) (n : Z) (acc : string) : string :=
  match fuel with
  | O => acc
  | S fuel' =>
      let acc' := String (digit_char (n mod 10)) acc in
      if n <? 10 then acc' else str_nat_fuel fuel' (n / 10) acc'
  end.

Definition str_int (n : Z) : string :=
  if n <? 0 then String "-" (str_nat_fuel (S (Z.to_nat (Z.log2 (- n)))) (- n) EmptyString)
  else str_nat_fuel (S (Z.to_nat (Z.log2 n))) n EmptyString.

(** [str(e)] for the [ValueError] of [int(s)], [s] having passed [isdigit]:
    the digits that lead the literal are counted against the limit before
    the characters after them are looked at. *)
Fixpoint leading_decimals (s : string) : nat :=
  match s with
  | EmptyString => O
  | String c rest => if is_decimal c then S (leading_decimals rest) else O
  end.

Definition int_error (s : string) : string :=
  let digits := leading_decimals s in
  if (max_str_digits <? digits)%nat then
    "Exceeds the limit (" ++ str_int (Z.of_nat max_str_digits)
    ++ " digits) for integer string conversion: value has "
    ++ str_int (Z.of_nat digits)
    ++ " digits; use sys.set_int_max_str_digits() to increase the limit"
  else "invalid literal for int() with base 10: '" ++ s ++ "'".

(** [l.sort(key=key)]: the list ordered by ascending key, elements of equal
    key in their order in [l].  That fixes the result, so any stable sort
    computes what Python's does; this one inserts from the right. *)
Section Sort.
Context {A : Type} (key : A -> Z).

Fixpoint sort_insert (x : A) (l : list A) : list A :=
  match l with
  | [] => [x]
  | y :: l' => if key x <=? key y then x :: l else y :: sort_insert x l'
  end.

Fixpoint sort (l : list A) : list A :=
  match l with
  | [] => []
  | x :: l' => sort_insert x (sort l')
  end.

End Sort.

End Py.

(** ** What the script takes from its runtime

    The standard-library calls and the network are the script's
    environment.  A [World] fixes how each of them answers; every theorem
    below holds for all worlds. *)

(** What [urlopen(req, timeout=TIMEOUT)] followed by the header lookups and
    [resp.read()] comes to: one of the three exception classes the script
    tells apart, or the two header values and the raw body. *)
Inductive Raised :=
  | HTTPError (code : Z)          (* [e.code] *)
  | URLError (reason : string)    (* [str(e.reason)] *)
  | Exception (msg : string).     (* any other exception, [str(e)] *)

Record Response := {
  content_type : string;          (* [resp.headers.get("Content-Type", "")] *)
  token_header : string;          (* [resp.headers.get("x-markdown-tokens", "")] *)
  body : list byte                (* [resp.read()] *)
}.

(** The calls [HTMLParser.feed] makes on a parser. *)
Inductive Markup :=
  | StartTag (tag : string)
  | EndTag (tag : string)
  | Data (data : string).

Record World := {
  (** [urlparse(url).netloc], or [None] when [urlparse] raises. *)
  urlparse_netloc : string -> option string;
  (** The request for a URL, run to completion. *)
  urlopen : string -> Raised + Response;
  (** [gzip.decompress(raw)]: the bytes, or [inl (str e)] when it raises. *)
  gzip_decompress : list byte -> string + list byte;
  (** [raw.decode("utf-8", errors="replace")]. *)
  decode_utf8 : list byte -> string;
  (** Group 1 of the first match of [<article[^>]*>(.*?)</article>]. *)
  search_article : string -> option string;
  (** The handler calls of [HTMLParser.feed], or [None] when it raises. *)
  feed : string -> option (list Markup);
  (** The order in which the pool's futures complete: the n-th future
      submitted last is put at position [completion !! n] among those
      submitted after it (see [as_completed]). *)
  completion : list nat
}.

(** ** Domain classifier *)

Definition SKIP_DOMAINS : gset string :=
  {[ "twitter.com"; "x.com";
     "reddit.com"; "old.reddit.com";
     "github.com";
     "youtube.com"; "youtu.be";
     "nytimes.com"; "bloomberg.com"; "wsj.com"; "ft.com";
     "arxiv.org" ]}.

(** [get_domain]: the [except Exception] arm turns a parse failure into
    the empty string. *)
Definition get_domain (W : World) (url : string) : string :=
  match urlparse_netloc W url with
  | Some netloc => Py.lstrip "www." (Py.lower netloc)
  | None => ""
  end.

(** ** Text extractor *)

Module TextExtractor.

(** The parser object's two attributes; [_text] is kept in append order. *)
Record state := { _text : list string; _skip : bool }.

Definition init : state := {| _text := []; _skip := false |}.

Definition _skip_tags : gset string :=
  {[ "script"; "style"; "nav"; "footer"; "header"; "aside"; "noscript" ]}.

Definition block_tags : list string :=
  [ "p"; "br"; "div"; "h1"; "h2"; "h3"; "h4"; "li" ].

Definition newline : string := String (ascii_of_N 10) EmptyString.

Definition handle_starttag (tag : string) (st : state) : state :=
  if bool_decide (tag ∈ _skip_tags)
  then {| _text := _text st; _skip := true |}
  else st.

Definition handle_endtag (tag : string) (st : state) : state :=
  let st1 := if bool_decide (tag ∈ _skip_tags)
             then {| _text := _text st; _skip := false |} else st in
  if bool_decide (tag ∈ block_tags)
  then {| _text := _text st1 ++ [newline]; _skip := _skip st1 |}
  else st1.

Definition handle_data (data : string) (st : state) : state :=
  if negb (_skip st)
  then {| _text := _text st ++ [data]; _skip := _skip st |}
  else st.

Definition handle (st : state) (m : Markup) : state :=
  match m with
  | StartTag tag => handle_starttag tag st
  | EndTag tag => handle_endtag tag st
  | Data data => handle_data data st
  end.

(** [re.sub(r"[ \t]+", " ", raw)] *)
Definition is_blank (c : ascii) : bool :=
  let n := N_of_ascii c in ((n =? 32) || (n =? 9))%N.

Fixpoint collapse_blanks (in_run : bool) (s : string) : string :=
  match s with
  | EmptyString => EmptyString
  | String c rest =>
      if is_blank c
      then if in_run then collapse_blanks true rest
           else String " " (collapse_blanks true rest)
      else String c (collapse_blanks false rest)
  end.

(** [re.sub(r"\n{3,}", "\n\n", raw)]: [run] counts the newlines of the
    current run already read; the third and later ones are dropped. *)
Definition is_newline (c : ascii) : bool := (N_of_ascii c =? 10)%N.

Fixpoint collapse_newlines (run : nat) (s : string) : string :=
  match s with
  | EmptyString => EmptyString
  | String c rest =>
      if is_newline c
      then if (2 <=? run)%nat then collapse_newlines (S run) rest
           else String c (collapse_newlines (S run) rest)
      else String c (collapse_newlines 0 rest)
  end.

(** [raw.strip()]: the characters below 256 for which [str.isspace] holds. *)
Definition is_space (c : ascii) : bool :=
  let n := N_of_ascii c in
  (((9 <=? n) && (n <=? 13)) || ((28 <=? n) && (n <=? 32))
   || (n =? 133) || (n =? 160))%N.

Fixpoint lstrip_space (s : string) : string :=
  match s with
  | EmptyString => EmptyString
  | String c rest => if is_space c then lstrip_space rest else s
  end.

Fixpoint rstrip_space (s : string) : string :=
  match s with
  | EmptyString => EmptyString
  | String c rest =>
      match rstrip_space rest with
      | EmptyString => if is_space c then EmptyString else String c EmptyString
      | kept => String c kept
      end
  end.

Definition strip (s : string) : string := rstrip_space (lstrip_space s).

Definition get_text (st : state) : string :=
  let raw := String.concat "" (_text st) in
  let raw := collapse_blanks false raw in
  let raw := collapse_newlines 0 raw in
  strip raw.

End TextExtractor.

Definition extract_readable_text (W : World) (html : string) : string :=
  let fragment :=
    match search_article W html with
    | Some inner => inner
    | None => html
    end in
  match feed W fragment with
  | Some calls => TextExtractor.get_text (fold_left TextExtractor.handle calls TextExtractor.init)
  | None => ""
  end.

(** ** Content fetcher *)

Inductive Method := CfMarkdown | HtmlExtract | HtmlTooShort | Skipped | Error.

(** The string the script stores under ["method"]. *)
Definition method_name (m : Method) : string :=
  match m with
  | CfMarkdown => "cf-markdown"
  | HtmlExtract => "html-extract"
  | HtmlTooShort => "html-too-short"
  | Skipped => "skipped"
  | Error => "error"
  end.

Record FetchOutcome := {
  text : string;
  method : Method;
  tokens : Z;
  error : option string
}.

(** [raw[:2] == b"\x1f\x8b"] *)
Definition is_gzip (raw : list byte) : bool :=
  match raw with
  | x1f :: x8b :: _ => true
  | _ => false
  end.

(** The body of the [try] block: [inl] is the exception that leaves it. *)
Definition fetch_try (W : World) (url : string) (max_chars : Z) : Raised + FetchOutcome :=
  match urlopen W url with
  | inl e => inl e
  | inr resp =>
      match (if is_gzip (body resp) then gzip_decompress W (body resp)
             else inr (body resp)) with
      | inl msg => inl (Exception msg)
      | inr raw =>
          let text_ := decode_utf8 W raw in
          if Py.contains "text/markdown" (content_type resp) then
            match (if Py.isdigit (token_header resp) then Py.int (token_header resp)
                   else Some (Py.len text_ / 4)) with
            | None => inl (Exception (Py.int_error (token_header resp)))
            | Some tokens_ =>
                inr {| text := Py.slice_to max_chars text_; method := CfMarkdown;
                       tokens := tokens_; error := None |}
            end
          else
            let extracted := extract_readable_text W text_ in
            if Py.len extracted <? 100 then
              inr {| text := ""; method := HtmlTooShort; tokens := 0;
                     error := Some "extracted text too short" |}
            else
              inr {| text := Py.slice_to max_chars extracted; method := HtmlExtract;
                     tokens := Py.len (Py.slice_to max_chars extracted) / 4;
                     error := None |}
      end
  end.

Definition fetch_full_text (W : World) (url : string) (max_chars : Z) : FetchOutcome :=
  let domain := get_domain W url in
  if bool_decide (domain ∈ SKIP_DOMAINS) then
    {| text := ""; method := Skipped; tokens := 0;
       error := Some ("domain " ++ domain ++ " in skip list") |}
  else
    match fetch_try W url max_chars with
    | inr outcome => outcome
    | inl (HTTPError code) =>
        {| text := ""; method := Error; tokens := 0;
           error := Some ("HTTP " ++ Py.str_int code) |}
    | inl (URLError reason) =>
        {| text := ""; method := Error; tokens := 0;
           error := Some ("URL error: " ++ reason) |}
    | inl (Exception msg) =>
        {| text := ""; method := Error; tokens := 0;
           error := Some (Py.slice_to 100 msg) |}
    end.

(** The string [text] of line 116, for the calls that get as far as decoding
    the body: the response was opened and, where its body starts with the
    gzip magic, decompressed. *)
Definition decoded_body (W : World) (url : string) : option string :=
  match urlopen W url with
  | inl _ => None
  | inr resp =>
      match (if is_gzip (body resp) then gzip_decompress W (body resp)
             else inr (body resp)) with
      | inl _ => None
      | inr raw => Some (decode_utf8 W raw)
      end
  end.

(** ** Articles *)

(** The JSON scalars an article holds under its keys. *)
Inductive value :=
  | VNull
  | VBool (b : bool)
  | VInt (n : Z)
  | VStr (s : string).

(** Truth value of a Python object in a condition. *)
Definition truthy (v : value) : bool :=
  match v with
  | VNull => false
  | VBool b => b
  | VInt n => negb (n =? 0)
  | VStr s => negb (String.eqb s "")
  end.

(** An article is a JSON object.  The two keys the script reads with typed
    operations have the types of the data model: ["link"] a string and
    ["quality_score"] an integer, each possibly absent.  Every other key
    (["title"], ["full_text"], ...) is an entry of [fields]. *)
Record Article := {
  link : option string;
  quality_score : option Z;
  fields : gmap string value
}.

(** [a.get(key)] *)
Definition get (a : Article) (key : string) : option value :=
  if String.eqb key "link" then VStr <$> link a
  else if String.eqb key "quality_score" then VInt <$> quality_score a
  else fields a !! key.

(** [a[key] = v] for a key other than the two typed ones. *)
Definition set_field (key : string) (v : value) (a : Article) : Article :=
  {| link := link a; quality_score := quality_score a;
     fields := <[key := v]> (fields a) |}.

(** [a.get("link", "")]; also [a["link"]] where the key is present. *)
Definition get_link (a : Article) : string := default "" (link a).

(** [a.get("quality_score", 0)] *)
Definition score (a : Article) : Z := default 0 (quality_score a).

(** [a.get("full_text")] as a condition. *)
Definition has_full_text (a : Article) : bool :=
  match fields a !! "full_text" with
  | Some v => truthy v
  | None => false
  end.

(** [a.get("link")] as a condition. *)
Definition has_link (a : Article) : bool := negb (String.eqb (get_link a) "").

(** ** Batch selector *)

Definition blog_domains : gset string :=
  {[ "simonwillison.net"; "overreacted.io"; "eli.thegreenplace.net";
     "matklad.github.io"; "lucumr.pocoo.org"; "devblogs.microsoft.com";
     "rachelbythebay.com"; "xeiaso.net"; "pluralistic.net"; "lcamtuf.substack.com";
     "hillelwayne.com"; "dynomight.net"; "geoffreylitt.com"; "fabiensanglard.net";
     "blog.cloudflare.com"; "antirez.com"; "paulgraham.com"; "danluu.com";
     "latent.space"; "www.latent.space" ]}.

(** A reference to an article of the candidate collection: its position
    there (the object's identity) and the object.  No article is written
    before the last loop of [enrich_articles], so the object read through a
    reference is the one the collection holds. *)
Definition ref : Type := nat * Article.

Definition refs (articles : list Article) : list ref := imap pair articles.

(** The test of the first loop: [false] where the loop [continue]s or falls
    through, [true] where it appends. *)
Definition is_eligible (W : World) (min_score : Z) (a : Article) : bool :=
  if has_full_text a || negb (has_link a) then false
  else
    let score_ := score a in
    let domain := get_domain W (get_link a) in
    (min_score <=? score_) || (bool_decide (domain ∈ blog_domains) && (3 <=? score_)).

Definition eligible (W : World) (min_score : Z) (articles : list Article) : list ref :=
  List.filter (fun a : ref => is_eligible W min_score a.2) (refs articles).

(** The second loop, [unique] in append order. *)
Fixpoint unique_from (seen_urls : gmap string ref) (eligible_ : list ref) : list ref :=
  match eligible_ with
  | [] => []
  | a :: rest =>
      let url := get_link a.2 in
      match seen_urls !! url with
      | None => a :: unique_from (<[url := a]> seen_urls) rest
      | Some _ => unique_from seen_urls rest
      end
  end.

Definition unique (W : World) (min_score : Z) (articles : list Article) : list ref :=
  unique_from ∅ (eligible W min_score articles).

(** [lambda x: -x.get("quality_score", 0)] *)
Definition sort_key (a : ref) : Z := - score a.2.

(** [to_fetch], the work list. *)
Definition to_fetch (W : World) (min_score max_articles : Z) (articles : list Article)
  : list ref :=
  Py.list_slice_to max_articles (Py.sort sort_key (unique W min_score articles)).

(** ** Orchestrator *)

(** [as_completed(futures)] yields every future once, in the order the
    fetches finish.  The world's [completion] list picks that order: each
    future is placed among the ones submitted after it. *)
Fixpoint insert_at {A} (k : nat) (x : A) (l : list A) : list A :=
  match k, l with
  | S k', y :: l' => y :: insert_at k' x l'
  | _, _ => x :: l
  end.

Fixpoint as_completed {A} (order : list nat) (futures : list A) : list A :=
  match futures with
  | [] => []
  | f :: rest => insert_at (hd 0%nat order) f (as_completed (tl order) rest)
  end.

(** The variables the collecting loop updates. *)
Record Tally := {
  attempted : Z;
  success : Z;
  cf_count : Z;
  results : gmap string FetchOutcome
}.

Definition tally0 : Tally :=
  {| attempted := 0; success := 0; cf_count := 0; results := ∅ |}.

(** [if result["text"]] *)
Definition nonempty (s : string) : bool := negb (String.eqb s "").

(** One round of the loop over [as_completed(futures)]; a future is the URL
    it was submitted for and the outcome it returns. *)
Definition collect (t : Tally) (future : string * FetchOutcome) : Tally :=
  let url := future.1 in
  let result := future.2 in
  let attempted_ := attempted t + 1 in
  let results_ := <[url := result]> (results t) in
  if nonempty (text result) then
    {| attempted := attempted_;
       success := success t + 1;
       cf_count := match method result with
                   | CfMarkdown => cf_count t + 1
                   | _ => cf_count t
                   end;
       results := results_ |}
  else
    {| attempted := attempted_; success := success t; cf_count := cf_count t;
       results := results_ |}.

(** The body of the last loop. *)
Definition apply_result (results_ : gmap string FetchOutcome) (a : Article) : Article :=
  let url := get_link a in
  match results_ !! url with
  | Some r =>
      if nonempty (text r) then
        set_field "full_text_tokens" (VInt (tokens r))
          (set_field "full_text_method" (VStr (method_name (method r)))
             (set_field "full_text" (VStr (text r)) a))
      else a
  | None => a
  end.

(** What a call leaves behind: the collection as mutated, the returned
    triple, and the URLs handed to [pool.submit], in submission order. *)
Record Run := {
  articles_after : list Article;
  returned : Z * Z * Z;
  submitted : list string
}.

Definition submit (W : World) (max_chars : Z) (a : ref) : string * FetchOutcome :=
  (get_link a.2, fetch_full_text W (get_link a.2) max_chars).

Definition enrich_articles (W : World) (articles : list Article)
    (min_score max_articles max_chars : Z) : Run :=
  match to_fetch W min_score max_articles articles with
  | [] => {| articles_after := articles; returned := (0, 0, 0); submitted := [] |}
  | work =>
      let futures := map (submit W max_chars) work in
      let t := fold_left collect (as_completed (completion W) futures) tally0 in
      {| articles_after := map (apply_result (results t)) articles;
         returned := (attempted t, success t, cf_count t);
         submitted := map fst futures |}
  end.

(** ** A concrete world for the worked examples

    [urlsplit_netloc] splits a URL the way [urllib.parse.urlsplit] does: an
    optional scheme (a letter, then letters, digits, [+], [-], [.], up to
    the first colon), then after [//] the network location up to the first
    [/], [?] or [#]; a bracket without its partner raises [ValueError]. *)

Module Example.

Definition is_alpha (c : ascii) : bool :=
  let n := N_of_ascii c in
  (((65 <=? n) && (n <=? 90)) || ((97 <=? n) && (n <=? 122)))%N.

Definition is_scheme_char (c : ascii) : bool :=
  is_alpha c || Py.is_decimal c || Py.char_in c "+-.".

(** The URL after ["scheme:"], or [None] when it does not start with one. *)
Fixpoint after_scheme (first : bool) (url : string) : option string :=
  match url with
  | EmptyString => None
  | String c rest =>
      if Ascii.eqb c ":" then (if first then None else Some rest)
      else if (if first then is_alpha c else is_scheme_char c)
           then after_scheme false rest
           else None
  end.

Fixpoint up_to_delimiter (s : string) : string :=
  match s with
  | EmptyString => EmptyString
  | String c rest => if Py.char_in c "/?#" then EmptyString
                     else String c (up_to_delimiter rest)
  end.

Definition urlsplit_netloc (url : string) : option string :=
  let url := match after_scheme true url with
             | Some rest => rest
             | None => url
             end in
  match url with
  | String "/" (String "/" rest) =>
      let netloc := up_to_delimiter rest in
      if xorb (Py.char_in "[" netloc) (Py.char_in "]" netloc) then None
      else Some netloc
  | _ => Some ""
  end.

(** A world over a given network: bodies are ASCII, nothing is gzipped, no
    page has an [<article>] element, the tokenizer sees one run of text, and
    futures complete in the order [order]. *)
Definition world (net : string -> Raised + Response) (order : list nat) : World :=
  {| urlparse_netloc := urlsplit_netloc;
     urlopen := net;
     gzip_decompress := fun _ => inl "Not a gzipped file";
     decode_utf8 := string_of_list_byte;
     search_article := fun _ => None;
     feed := fun html => Some [Data html];
     completion := order |}.

Definition markdown (tokens_header body_ : string) : Raised + Response :=
  inr {| content_type := "text/markdown; charset=utf-8";
         token_header := tokens_header;
         body := list_byte_of_string body_ |}.

Definition article (url : string) (score_ : Z) (title : string) : Article :=
  {| link := Some url; quality_score := Some score_;
     fields := {[ "title" := VStr title ]} |}.

End Example.

(** * Properties *)

(** ** Strings and slices *)

Lemma length_substring_0 (s : string) (m : nat) :
  String.length (String.substring 0 m s) = (m `min` String.length s)%nat.
Proof.
  revert m. induction s as [|c s IH]; intros [|m]; simpl; auto.
Qed.

Lemma len_nonneg (s : string) : 0 <= Py.len s.
Proof. unfold Py.len. lia. Qed.

Lemma len_empty_iff (s : string) : Py.len s = 0 <-> s = "".
Proof.
  unfold Py.len. destruct s; simpl; split; intros H; try done; lia.
Qed.

(** The length of [s[:n]], in Python's terms. *)
Lemma len_slice_to (n : Z) (s : string) :
  Py.len (Py.slice_to n s) =
  if 0 <=? n then Z.min n (Py.len s) else Z.max 0 (Py.len s + n).
Proof.
  unfold Py.slice_to, Py.len.
  destruct (0 <=? n) eqn:Hn; rewrite length_substring_0; lia.
Qed.

Lemma len_slice_to_le (n : Z) (s : string) :
  0 <= n -> Py.len (Py.slice_to n s) <= n.
Proof.
  intros Hn. rewrite len_slice_to.
  destruct (0 <=? n) eqn:E; lia.
Qed.

Lemma int_acc_nonneg (s : string) (acc n : Z) :
  0 <= acc -> Py.int_acc acc s = Some n -> 0 <= n.
Proof.
  revert acc. induction s as [|c s IH]; simpl; intros acc Hacc H.
  - congruence.
  - destruct (Py.is_decimal c); [|done].
    eapply IH; [|exact H]. lia.
Qed.

Lemma int_nonneg (s : string) (n : Z) : Py.int s = Some n -> 0 <= n.
Proof.
  unfold Py.int. destruct s as [|c s]; [done|].
  destruct (Py.max_str_digits <? String.length (String c s))%nat; [done|].
  intros H. eapply (int_acc_nonneg (String c s) 0); [lia|exact H].
Qed.

(** [int] accepts no literal of more than 4300 characters. *)
Lemma int_digit_limit (s : string) (n : Z) :
  Py.int s = Some n -> (String.length s <= 4300)%nat.
Proof.
  unfold Py.int. destruct s as [|c s]; [done|].
  destruct (Py.max_str_digits <? String.length (String c s))%nat eqn:E; [done|].
  intros _. apply Nat.ltb_ge in E. exact E.
Qed.

(** ** Content fetcher *)

(** The methods the data model pairs with an empty text. *)
Definition empty_text_methods : list Method := [Skipped; HtmlTooShort; Error].

(** Whatever the world answers, a call returns an outcome on one of five
    paths; this is the shape of each. *)
Lemma fetch_full_text_paths (W : World) (url : string) (max_chars : Z) :
  let o := fetch_full_text W url max_chars in
  (method o = Skipped /\ text o = "" /\ tokens o = 0) \/
  (method o = Error /\ text o = "" /\ tokens o = 0) \/
  (method o = HtmlTooShort /\ text o = "" /\ tokens o = 0) \/
  (method o = CfMarkdown /\ 0 <= tokens o /\
     exists decoded, text o = Py.slice_to max_chars decoded) \/
  (method o = HtmlExtract /\ tokens o = Py.len (text o) / 4 /\
     exists extracted, 100 <= Py.len extracted /\
       text o = Py.slice_to max_chars extracted).
Proof.
  cbv zeta. unfold fetch_full_text.
  destruct (bool_decide (get_domain W url ∈ SKIP_DOMAINS)).
  { left. cbn [text method tokens]. auto. }
  unfold fetch_try.
  destruct (urlopen W url) as [[code|reason|msg]|resp];
    [right; left; cbn [text method tokens]; auto ..|].
  destruct (if is_gzip (body resp) then gzip_decompress W (body resp)
            else inr (body resp)) as [msg|raw];
    [right; left; cbn [text method tokens]; auto|].
  destruct (Py.contains "text/markdown" (content_type resp)).
  - destruct (Py.isdigit (token_header resp)).
    + destruct (Py.int (token_header resp)) as [n|] eqn:Hn;
        [|right; left; cbn [text method tokens]; auto].
      do 3 right; left. cbn [text method tokens].
      split_and!; [reflexivity | by eapply int_nonneg | by eexists].
    + do 3 right; left. cbn [text method tokens].
      split_and!; [reflexivity | | by eexists].
      apply Z.div_pos; [apply len_nonneg | lia].
  - destruct (Py.len (extract_readable_text W (decode_utf8 W raw)) <? 100) eqn:Hlen.
    + do 2 right; left. cbn [text method tokens]. auto.
    + do 4 right. cbn [text method tokens].
      split_and!; [reflexivity | reflexivity |].
      eexists. split; [|reflexivity]. lia.
Qed.

(** Where the text and the tokens of the two successful paths come from. *)
Lemma fetch_full_text_sources (W : World) (url : string) (max_chars : Z) :
  let o := fetch_full_text W url max_chars in
  (method o = CfMarkdown ->
     exists resp body,
       urlopen W url = inr resp /\ decoded_body W url = Some body /\
       text o = Py.slice_to max_chars body /\
       (if Py.isdigit (token_header resp)
        then Py.int (token_header resp) = Some (tokens o)
        else tokens o = Py.len body / 4)) /\
  (method o = HtmlExtract ->
     exists body,
       decoded_body W url = Some body /\
       100 <= Py.len (extract_readable_text W body) /\
       text o = Py.slice_to max_chars (extract_readable_text W body)).
Proof.
  cbv zeta. unfold fetch_full_text, decoded_body.
  destruct (bool_decide (get_domain W url ∈ SKIP_DOMAINS)).
  { cbn [method]. split; discriminate. }
  unfold fetch_try.
  destruct (urlopen W url) as [[code|reason|msg]|resp];
    [cbn [method]; split; discriminate ..|].
  destruct (if is_gzip (body resp) then gzip_decompress W (body resp)
            else inr (body resp)) as [msg|raw];
    [cbn [method]; split; discriminate|].
  destruct (Py.contains "text/markdown" (content_type resp)).
  - destruct (Py.isdigit (token_header resp)) eqn:Hdigit.
    + destruct (Py.int (token_header resp)) as [n|] eqn:Hn;
        [|cbn [method]; split; discriminate].
      cbn [text method tokens]. split; [|discriminate].
      intros _. exists resp, (decode_utf8 W raw).
      rewrite Hdigit. auto.
    + cbn [text method tokens]. split; [|discriminate].
      intros _. exists resp, (decode_utf8 W raw).
      rewrite Hdigit. auto.
  - destruct (Py.len (extract_readable_text W (decode_utf8 W raw)) <? 100) eqn:Hlen.
    + cbn [method]. split; discriminate.
    + cbn [text method tokens]. split; [discriminate|].
      intros _. exists (decode_utf8 W raw). split_and!; [done | lia | done].
Qed.

(** Under a positive budget the cut empties only the empty string. *)
Lemma slice_to_empty_iff (n : Z) (s : string) :
  0 < n -> Py.slice_to n s = "" <-> s = "".
Proof.
  intros Hn. rewrite <- !len_empty_iff, len_slice_to.
  pose proof (len_nonneg s).
  destruct (0 <=? n) eqn:E; lia.
Qed.

(** *** Empty text and the method (C1) *)

(** A server that answers every request with an empty markdown document. *)
Definition empty_markdown_world : World :=
  Example.world (fun _ => Example.markdown "" "") [].

Lemma fetch_empty_markdown :
  fetch_full_text empty_markdown_world "https://example.com/post" 2000 =
  {| text := ""; method := CfMarkdown; tokens := 0; error := None |}.
Proof. vm_compute. reflexivity. Qed.

(** C1, as stated, fails: the text is not empty exactly for the methods
    skipped, html-too-short and error.  A markdown response with an empty
    body comes back with method cf-markdown and an empty text. *)
Lemma fetch_text_empty_iff_method_counterexample :
  ~ (forall (W : World) (url : string) (max_chars : Z),
       text (fetch_full_text W url max_chars) = "" <->
       method (fetch_full_text W url max_chars) ∈ empty_text_methods).
Proof.
  intros H.
  destruct (H empty_markdown_world "https://example.com/post" 2000) as [Hm _].
  rewrite fetch_empty_markdown in Hm. specialize (Hm eq_refl). simpl in Hm.
  unfold empty_text_methods in Hm.
  rewrite !elem_of_cons, elem_of_nil in Hm.
  destruct Hm as [?|[?|[?|[]]]]; discriminate.
Qed.

(** C1, amended: an outcome whose method is skipped, html-too-short or error
    has an empty text; the text of a cf-markdown outcome is the decoded body
    cut to the budget, and the text of an html-extract outcome is the
    extracted text, of 100 characters or more, cut to the budget.  So for a
    positive budget the text is empty exactly when the method is one of the
    three, or the outcome is cf-markdown and the decoded body is empty. *)
Theorem fetch_text_empty_methods (W : World) (url : string) (max_chars : Z) :
  let o := fetch_full_text W url max_chars in
  (method o ∈ empty_text_methods -> text o = "") /\
  (method o = CfMarkdown ->
     exists body, decoded_body W url = Some body /\
       text o = Py.slice_to max_chars body) /\
  (method o = HtmlExtract ->
     exists body, decoded_body W url = Some body /\
       100 <= Py.len (extract_readable_text W body) /\
       text o = Py.slice_to max_chars (extract_readable_text W body)) /\
  (0 < max_chars ->
     (text o = "" <->
      method o ∈ empty_text_methods \/
      (method o = CfMarkdown /\ decoded_body W url = Some ""))).
Proof.
  intros o.
  pose proof (fetch_full_text_paths W url max_chars) as Hpaths.
  destruct (fetch_full_text_sources W url max_chars) as [Hcf Hhtml].
  cbv zeta in Hpaths, Hcf, Hhtml. fold o in Hpaths, Hcf, Hhtml. clearbody o.
  assert (forall m, m ∈ empty_text_methods <->
                    m = Skipped \/ m = HtmlTooShort \/ m = Error) as Hset.
  { intros m. unfold empty_text_methods.
    rewrite !elem_of_cons, elem_of_nil. tauto. }
  split_and!.
  - rewrite Hset.
    destruct Hpaths
      as [(Hm & Ht & _)|[(Hm & Ht & _)|[(Hm & Ht & _)|[(Hm & _)|(Hm & _)]]]];
      [done.. | |]; rewrite Hm; intros [?|[?|?]]; discriminate.
  - intros Hm. destruct (Hcf Hm) as (resp & body_ & _ & Hbody & Ht & _).
    by exists body_.
  - exact Hhtml.
  - intros Hpos. rewrite Hset.
    destruct Hpaths
      as [(Hm & Ht & _)|[(Hm & Ht & _)|[(Hm & Ht & _)|[(Hm & _)|(Hm & _)]]]].
    1-3: split; [intros _; left; rewrite Hm; tauto | done].
    + destruct (Hcf Hm) as (resp & body_ & _ & Hbody & Ht & _).
      rewrite Ht, slice_to_empty_iff by done. rewrite Hm, Hbody.
      split.
      * intros ->. by right.
      * intros [[?|[?|?]]|[_ ?]]; [discriminate.. | congruence].
    + destruct (Hhtml Hm) as (body_ & _ & Hlen & Ht).
      rewrite Ht, slice_to_empty_iff by done. rewrite Hm.
      split.
      * intros He. rewrite He in Hlen. vm_compute in Hlen. by destruct Hlen.
      * intros [[?|[?|?]]|[? _]]; discriminate.
Qed.

(** The amended property at the empty markdown document: under the budget
    2000 the text is empty because the body is. *)
Lemma fetch_text_empty_methods_witness :
  text (fetch_full_text empty_markdown_world "https://example.com/post" 2000) = "" <->
  method (fetch_full_text empty_markdown_world "https://example.com/post" 2000)
    ∈ empty_text_methods \/
  (method (fetch_full_text empty_markdown_world "https://example.com/post" 2000)
     = CfMarkdown /\
   decoded_body empty_markdown_world "https://example.com/post" = Some "").
Proof.
  apply (fetch_text_empty_methods empty_markdown_world "https://example.com/post" 2000).
  reflexivity.
Defined.

(** *** Tokens and text (C5) *)

(** A server that answers every request with the markdown document [Hi]
    and no token-count header. *)
Definition short_markdown_world : World :=
  Example.world (fun _ => Example.markdown "" "Hi") [].

Lemma fetch_short_markdown :
  fetch_full_text short_markdown_world "https://example.com/post" 2000 =
  {| text := "Hi"; method := CfMarkdown; tokens := 0; error := None |}.
Proof. vm_compute. reflexivity. Qed.

(** C5, as stated, fails: tokens is not 0 exactly when the text is empty,
    even granting the cf-markdown path its exception for an empty text.  A
    two-character markdown body has 2 // 4 = 0 tokens and a text. *)
Lemma fetch_tokens_zero_iff_empty_counterexample :
  ~ (forall (W : World) (url : string) (max_chars : Z),
       let o := fetch_full_text W url max_chars in
       (tokens o = 0 <-> text o = "") \/
       (method o = CfMarkdown /\ text o = "")).
Proof.
  intros H.
  specialize (H short_markdown_world "https://example.com/post" 2000).
  cbv zeta in H. rewrite fetch_short_markdown in H. simpl in H.
  destruct H as [[H _]|[_ H]]; [specialize (H eq_refl)|]; discriminate.
Qed.

(** C5, amended: tokens is never negative.  Off the cf-markdown path it is
    the length of the text divided by 4, rounded down, so it is 0 exactly
    when the text has fewer than 4 characters, an empty text included, and
    for a budget of 4 or more exactly when the text is empty.  On the
    cf-markdown path it is the value of the token header when the header is
    all digits, and otherwise a quarter of the length of the decoded body,
    taken before the cut, whatever the text returned. *)
Theorem fetch_tokens_of_text (W : World) (url : string) (max_chars : Z) :
  let o := fetch_full_text W url max_chars in
  0 <= tokens o /\
  (method o <> CfMarkdown ->
     tokens o = Py.len (text o) / 4 /\
     (tokens o = 0 <-> Py.len (text o) < 4) /\
     (text o = "" -> tokens o = 0) /\
     (4 <= max_chars -> tokens o = 0 -> text o = "")) /\
  (method o = CfMarkdown ->
     exists resp body,
       urlopen W url = inr resp /\ decoded_body W url = Some body /\
       text o = Py.slice_to max_chars body /\
       (if Py.isdigit (token_header resp)
        then Py.int (token_header resp) = Some (tokens o)
        else tokens o = Py.len body / 4)).
Proof.
  intros o.
  assert (forall t : Z, 0 <= t -> (t / 4 = 0 <-> t < 4)) as Hdiv.
  { intros t Ht. split; intros H.
    - apply Z.div_small_iff in H; lia.
    - apply Z.div_small; lia. }
  pose proof (fetch_full_text_paths W url max_chars) as Hpaths.
  destruct (fetch_full_text_sources W url max_chars) as [Hcf _].
  cbv zeta in Hpaths, Hcf. fold o in Hpaths, Hcf. clearbody o.
  split_and!; [| |exact Hcf].
  - destruct Hpaths
      as [(_ & _ & Hk)|[(_ & _ & Hk)|[(_ & _ & Hk)|[(_ & Hk & _)|(_ & Hk & _)]]]];
      [rewrite Hk; lia.. | done |].
    rewrite Hk. apply Z.div_pos; [apply len_nonneg | lia].
  - intros Hne.
    destruct Hpaths
      as [(Hm & Ht & Hk)|[(Hm & Ht & Hk)|[(Hm & Ht & Hk)|[(Hm & _)|(Hm & Hk & e & He & Ht)]]]].
    1-3: rewrite Hk, Ht; split_and!; [done | | done | done];
         split; [intros _; vm_compute; reflexivity | done].
    + by destruct Hne.
    + pose proof (len_nonneg (text o)) as Hlen.
      split_and!; [done | rewrite Hk; by apply Hdiv | |].
      * intros Hempty. rewrite Hk, Hempty. reflexivity.
      * intros Hbudget Hzero. rewrite Hk in Hzero. apply Hdiv in Hzero; [|done].
        rewrite Ht, len_slice_to in Hzero.
        destruct (0 <=? max_chars) eqn:E; lia.
Qed.

(** The amended property at a markdown response that declares 321 tokens
    for the document [# Title], cut to 5 characters. *)
Definition declared_markdown_world : World :=
  Example.world (fun _ => Example.markdown "321" "# Title") [].

Lemma fetch_tokens_of_text_witness :
  exists resp body,
    urlopen declared_markdown_world "https://example.com/post" = inr resp /\
    decoded_body declared_markdown_world "https://example.com/post" = Some body /\
    text (fetch_full_text declared_markdown_world "https://example.com/post" 5)
      = Py.slice_to 5 body /\
    (if Py.isdigit (token_header resp)
     then Py.int (token_header resp)
          = Some (tokens (fetch_full_text declared_markdown_world
                            "https://example.com/post" 5))
     else tokens (fetch_full_text declared_markdown_world "https://example.com/post" 5)
          = Py.len body / 4).
Proof.
  apply (fetch_tokens_of_text declared_markdown_world "https://example.com/post" 5).
  reflexivity.
Defined.

(** *** Failures (C2) *)

(** What each [except] arm stores as the description. *)
Definition description (e : Raised) : string :=
  match e with
  | HTTPError code => "HTTP " ++ Py.str_int code
  | URLError reason => "URL error: " ++ reason
  | Exception msg => Py.slice_to 100 msg
  end.

(** A request that fails never escapes [fetch_full_text]: the outcome is an
    error outcome carrying the arm's description. *)
Lemma fetch_full_text_raised (W : World) (url : string) (max_chars : Z) (e : Raised) :
  get_domain W url ∉ SKIP_DOMAINS ->
  urlopen W url = inl e ->
  fetch_full_text W url max_chars =
  {| text := ""; method := Error; tokens := 0; error := Some (description e) |}.
Proof.
  intros Hskip He. unfold fetch_full_text, fetch_try.
  rewrite bool_decide_eq_false_2 by done. rewrite He. by destruct e.
Qed.


(** A host whose certificate does not verify: [urlopen] raises [URLError]
    with the TLS library's message as its reason. *)
Definition certificate_reason : string :=
  "[SSL: CERTIFICATE_VERIFY_FAILED] certificate verify failed: unable to get local issuer certificate (_ssl.c:1007)".

Definition certificate_world : World :=
  Example.world (fun _ => inl (URLError certificate_reason)) [].

(** C2 at a failing input: a [URLError] whose reason is 112 characters long
    gives an error outcome whose description is the reason behind the
    11-character prefix, 123 characters in all: the arm for [URLError] does
    not cut it to 100 as the arm for other exceptions does. *)
Lemma fetch_url_error_description_untruncated :
  let o := fetch_full_text certificate_world "https://intranet.example.org/post" 2000 in
  method o = Error /\
  error o = Some ("URL error: " ++ certificate_reason) /\
  Py.len ("URL error: " ++ certificate_reason) = 123.
Proof. vm_compute. done. Qed.

(** ** Domain classifier (C4) *)

(** [lstrip] stops at the first character outside its set, and nowhere
    before. *)
Lemma lstrip_cons_in (chars : string) (c : ascii) (s : string) :
  Py.char_in c chars = true -> Py.lstrip chars (String c s) = Py.lstrip chars s.
Proof. intros H. simpl. by rewrite H. Qed.

Lemma lstrip_cons_out (chars : string) (c : ascii) (s : string) :
  Py.char_in c chars = false -> Py.lstrip chars (String c s) = String c s.
Proof. intros H. simpl. by rewrite H. Qed.

(** The domain never starts with [w] or [.]: every such leading character of
    the host is dropped, not the one prefix [www.]. *)
Lemma get_domain_head (W : World) (url : string) (c : ascii) (rest : string) :
  get_domain W url = String c rest -> Py.char_in c "www." = false.
Proof.
  unfold get_domain. destruct (urlparse_netloc W url) as [netloc|]; [|done].
  induction (Py.lower netloc) as [|d s IH]; [done|].
  destruct (Py.char_in d "www.") eqn:E.
  - by rewrite lstrip_cons_in.
  - rewrite lstrip_cons_out by done. by intros [= <- <-].
Qed.


(** C4 at failing inputs: whenever [urlparse] gives the host
    [www.wired.com], the domain is [ired.com]: after the prefix [www.] the
    [w] of [wired] goes too.  The host [web.dev], which has no [www.] prefix,
    loses its first letter the same way. *)
Lemma get_domain_strips_host_letters (W : World) (url : string) :
  (urlparse_netloc W url = Some "www.wired.com" -> get_domain W url = "ired.com") /\
  (urlparse_netloc W url = Some "web.dev" -> get_domain W url = "eb.dev").
Proof.
  unfold get_domain. split; intros ->; vm_compute; reflexivity.
Qed.

Lemma get_domain_wired :
  get_domain (Example.world (fun _ => inl (HTTPError 404)) [])
    "https://www.wired.com/story/ai-agents" = "ired.com".
Proof.
  apply (get_domain_strips_host_letters
           (Example.world (fun _ => inl (HTTPError 404)) [])
           "https://www.wired.com/story/ai-agents").
  vm_compute. reflexivity.
Defined.

(** ** Batch selector *)

(** *** References *)

Lemma elem_of_refs (articles : list Article) (i : nat) (a : Article) :
  (i, a) ∈ refs articles <-> articles !! i = Some a.
Proof.
  unfold refs. rewrite elem_of_lookup_imap. split.
  - intros (j & b & [= -> ->] & H). done.
  - intros H. eauto.
Qed.

(** Earlier in a list of references means earlier in the collection. *)
Definition earlier (r s : ref) : Prop := (r.1 < s.1)%nat.

Lemma imap_pair_earlier (articles : list Article) (n : nat) :
  StronglySorted earlier (imap (fun i a => (n + i, a)%nat) articles) /\
  Forall (fun r : ref => (n <= r.1)%nat) (imap (fun i a => (n + i, a)%nat) articles).
Proof.
  revert n. induction articles as [|a l IH]; intros n.
  - split; constructor.
  - rewrite imap_cons.
    assert (imap ((fun i a => (n + i, a)%nat) ∘ S) l =
            imap (fun i a => (S n + i, a)%nat) l) as ->.
    { apply imap_ext. intros i x _. simpl. f_equal. lia. }
    destruct (IH (S n)) as [Hs Hf]. split.
    + constructor; [done|].
      eapply Forall_impl; [exact Hf|]. intros r Hr. unfold earlier. simpl in *. lia.
    + constructor; [simpl; lia|].
      eapply Forall_impl; [exact Hf|]. intros r Hr. simpl in *. lia.
Qed.

Lemma refs_earlier (articles : list Article) : StronglySorted earlier (refs articles).
Proof. apply (imap_pair_earlier articles 0). Qed.

Lemma StronglySorted_sublist {A} (R : relation A) (l1 l2 : list A) :
  l1 `sublist_of` l2 -> StronglySorted R l2 -> StronglySorted R l1.
Proof.
  induction 1 as [|x l1 l2 Hsub IH|x l1 l2 Hsub IH]; intros Hs.
  - constructor.
  - apply StronglySorted_cons in Hs as [Hx Hs].
    apply StronglySorted_cons. split; [|auto].
    apply Forall_forall. intros y Hy.
    rewrite Forall_forall in Hx. apply Hx. by eapply sublist_subseteq.
  - apply StronglySorted_cons in Hs as [_ Hs]. auto.
Qed.

Lemma filter_sublist {A} (f : A -> bool) (l : list A) : List.filter f l `sublist_of` l.
Proof.
  induction l as [|x l IH]; simpl; [constructor|].
  destruct (f x); by constructor.
Qed.

(** *** Eligibility (C8) *)

(** Membership in the list the first loop builds. *)
Lemma elem_of_eligible (W : World) (min_score : Z) (articles : list Article)
    (i : nat) (a : Article) :
  (i, a) ∈ eligible W min_score articles <->
  articles !! i = Some a /\
  (exists url, link a = Some url /\ url <> "") /\
  has_full_text a = false /\
  (min_score <= score a \/
   (get_domain W (get_link a) ∈ blog_domains /\ 3 <= score a)).
Proof.
  unfold eligible. rewrite list_elem_of_In, filter_In, <- list_elem_of_In, elem_of_refs.
  change ((i, a).2) with a.
  assert (has_link a = true <-> exists url, link a = Some url /\ url <> "") as Hlink.
  { unfold has_link, get_link. destruct (link a) as [url|]; simpl.
    - destruct (String.eqb_spec url "") as [->|Hne]; simpl; split.
      + done.
      + by intros (? & [= <-] & ?).
      + eauto.
      + done.
    - split; [done | intros (? & [=] & _)]. }
  unfold is_eligible. rewrite <- Hlink. clear Hlink.
  set (passes := (min_score <=? score a) ||
                 (bool_decide (get_domain W (get_link a) ∈ blog_domains) &&
                  (3 <=? score a))).
  assert (passes = true <->
          min_score <= score a \/
          (get_domain W (get_link a) ∈ blog_domains /\ 3 <= score a)) as <-.
  { unfold passes.
    rewrite orb_true_iff, andb_true_iff, bool_decide_eq_true, !Z.leb_le. tauto. }
  clearbody passes.
  destruct (has_full_text a), (has_link a), passes; cbn [orb negb];
    intuition congruence.
Qed.











(** The network location is the host with any port: a blog address that
    names the port is not matched by the allow-list. *)
Lemma eligible_blog_with_port :
  (0%nat, Example.article "https://simonwillison.net:443/post" 5 "notes")
    ∉ eligible empty_markdown_world 10
        [Example.article "https://simonwillison.net:443/post" 5 "notes"].
Proof.
  rewrite elem_of_eligible. intros (_ & _ & _ & [Hs|[Hd _]]).
  - vm_compute in Hs. by apply Hs.
  - revert Hd. eapply (bool_decide_eq_false_1 _). vm_compute. reflexivity.
Qed.

(** Where [lstrip] takes more than the prefix (C4) the domain the loop tests
    is not the host's: a host that is no blog's is matched. *)
Lemma eligible_blog_by_stripped_letter :
  (0%nat, Example.article "https://w.danluu.com/post" 3 "notes")
    ∈ eligible empty_markdown_world 10
        [Example.article "https://w.danluu.com/post" 3 "notes"].
Proof.
  apply elem_of_eligible. split_and!;
    [reflexivity | by eexists | vm_compute; reflexivity |].
  right. split; [|by vm_compute].
  eapply (bool_decide_eq_true_1 _). vm_compute. reflexivity.
Qed.



(** *** The sort *)

Section SortFacts.
Context {A : Type} (key : A -> Z).

Lemma sort_insert_perm (x : A) (l : list A) : Py.sort_insert key x l ≡ₚ x :: l.
Proof.
  induction l as [|y l IH]; simpl; [done|].
  destruct (key x <=? key y); [done|].
  rewrite IH. apply Permutation_swap.
Qed.

(** The sorted list holds the elements of the list, each as often. *)
Lemma sort_perm (l : list A) : Py.sort key l ≡ₚ l.
Proof.
  induction l as [|x l IH]; simpl; [done|].
  by rewrite sort_insert_perm, IH.
Qed.

Lemma sort_insert_sorted (x : A) (l : list A) :
  StronglySorted (fun a b => key a <= key b) l ->
  StronglySorted (fun a b => key a <= key b) (Py.sort_insert key x l).
Proof.
  induction l as [|y l IH]; simpl; intros Hs.
  - repeat constructor.
  - apply StronglySorted_cons in Hs as [Hy Hs].
    destruct (key x <=? key y) eqn:E.
    + apply StronglySorted_cons. split; [|by apply StronglySorted_cons].
      constructor; [lia|].
      eapply Forall_impl; [exact Hy|]. intros z Hz. simpl in Hz. lia.
    + apply StronglySorted_cons. split; [|auto].
      rewrite sort_insert_perm. constructor; [lia|done].
Qed.

(** Keys ascend along the sorted list. *)
Lemma sort_sorted (l : list A) :
  StronglySorted (fun a b => key a <= key b) (Py.sort key l).
Proof.
  induction l as [|x l IH]; simpl; [constructor|].
  by apply sort_insert_sorted.
Qed.

Lemma sort_insert_stable (k : Z) (x : A) (l : list A) :
  List.filter (fun a => key a =? k) (Py.sort_insert key x l) =
  List.filter (fun a => key a =? k) (x :: l).
Proof.
  induction l as [|y l IH]; [done|].
  cbn [Py.sort_insert]. destruct (key x <=? key y) eqn:E; [done|].
  cbn [List.filter] in *. rewrite IH.
  destruct (key x =? k) eqn:Ex, (key y =? k) eqn:Ey; try done. lia.
Qed.

(** The sort is stable: the elements of any one key are in the order they
    had before. *)
Lemma sort_stable (k : Z) (l : list A) :
  List.filter (fun a => key a =? k) (Py.sort key l) =
  List.filter (fun a => key a =? k) l.
Proof.
  induction l as [|x l IH]; [done|].
  cbn [Py.sort]. rewrite sort_insert_stable. cbn [List.filter]. by rewrite IH.
Qed.

End SortFacts.

(** *** Order and size of the work list (C6) *)

(** [r] may stand before [s] in the work list: its score is not lower, and
    on a tie it comes earlier in the collection. *)
Definition ranked (r s : ref) : Prop :=
  score s.2 <= score r.2 /\ (score r.2 = score s.2 -> earlier r s).

Lemma sort_insert_ranked (x : ref) (l : list ref) :
  Forall (earlier x) l ->
  StronglySorted ranked l ->
  StronglySorted ranked (Py.sort_insert sort_key x l).
Proof.
  unfold sort_key.
  induction l as [|y l IH]; simpl; intros Hx Hs.
  - repeat constructor.
  - apply Forall_cons in Hx as [Hxy Hx].
    apply StronglySorted_cons in Hs as [Hy Hs].
    destruct (- score x.2 <=? - score y.2) eqn:E.
    + apply StronglySorted_cons. split; [|by apply StronglySorted_cons].
      constructor; [split; [lia|done]|].
      rewrite Forall_forall in Hy, Hx. apply Forall_forall. intros z Hz.
      destruct (Hy z Hz) as [Hyz _]. split; [lia|]. intros _. by apply Hx.
    + apply StronglySorted_cons. split; [|auto].
      rewrite sort_insert_perm. constructor; [|done].
      split; [lia|]. intros Heq. lia.
Qed.

Lemma sort_ranked (l : list ref) :
  StronglySorted earlier l -> StronglySorted ranked (Py.sort sort_key l).
Proof.
  induction l as [|x l IH]; simpl; intros Hs; [constructor|].
  apply StronglySorted_cons in Hs as [Hx Hs].
  apply sort_insert_ranked; [|auto].
  by rewrite sort_perm.
Qed.

Lemma unique_from_sublist (seen_urls : gmap string ref) (l : list ref) :
  unique_from seen_urls l `sublist_of` l.
Proof.
  revert seen_urls. induction l as [|a l IH]; intros seen_urls; simpl; [constructor|].
  destruct (seen_urls !! get_link a.2); by constructor.
Qed.

Lemma list_slice_to_sublist {A} (n : Z) (l : list A) :
  Py.list_slice_to n l `sublist_of` l.
Proof. unfold Py.list_slice_to. destruct (0 <=? n); apply sublist_take. Qed.

Lemma eligible_earlier (W : World) (min_score : Z) (articles : list Article) :
  StronglySorted earlier (eligible W min_score articles).
Proof.
  eapply StronglySorted_sublist; [apply filter_sublist | apply refs_earlier].
Qed.

Lemma unique_earlier (W : World) (min_score : Z) (articles : list Article) :
  StronglySorted earlier (unique W min_score articles).
Proof.
  eapply StronglySorted_sublist; [apply unique_from_sublist | apply eligible_earlier].
Qed.

Lemma unique_subseteq (W : World) (min_score : Z) (articles : list Article) :
  unique W min_score articles ⊆ eligible W min_score articles.
Proof. apply sublist_subseteq, unique_from_sublist. Qed.

Lemma to_fetch_subseteq (W : World) (min_score max_articles : Z) (articles : list Article) :
  to_fetch W min_score max_articles articles ⊆ unique W min_score articles.
Proof.
  intros r Hr. apply (sublist_subseteq _ _ (list_slice_to_sublist _ _)) in Hr.
  by rewrite sort_perm in Hr.
Qed.

Lemma eligible_subseteq (W : World) (min_score : Z) (articles : list Article) :
  eligible W min_score articles ⊆ refs articles.
Proof. apply sublist_subseteq, filter_sublist. Qed.

(** Every entry of the work list refers to an article of the collection. *)
Lemma to_fetch_refs (W : World) (min_score max_articles : Z) (articles : list Article)
    (r : ref) :
  r ∈ to_fetch W min_score max_articles articles -> articles !! r.1 = Some r.2.
Proof.
  intros Hr. apply to_fetch_subseteq, unique_subseteq, eligible_subseteq in Hr.
  destruct r as [i a]. by apply elem_of_refs.
Qed.

(** Three candidates, all eligible at a minimum score of 10. *)
Definition three_articles : list Article :=
  [ Example.article "https://example.com/a" 15 "A";
    Example.article "https://example.com/b" 12 "B";
    Example.article "https://example.com/c" 11 "C" ].

(** C6, as stated, fails for a negative [max_articles]: the slice
    [unique[:max_articles]] then drops entries from the end and keeps the
    rest.  With three candidates and [max_articles = -1] the work list has
    two entries. *)
Lemma to_fetch_length_counterexample :
  ~ (forall (W : World) (min_score max_articles : Z) (articles : list Article),
       Z.of_nat (length (to_fetch W min_score max_articles articles)) <= max_articles).
Proof.
  intros H.
  specialize (H empty_markdown_world 10 (-1) three_articles).
  vm_compute in H. by apply H.
Qed.

(** C6, amended: the work list is ordered by non-increasing score, entries
    of equal score in their order in the collection (so the sort is stable),
    and every entry refers to an article of the collection; for a
    [max_articles] that is not negative it has at most [max_articles]
    entries. *)
Theorem to_fetch_ranked (W : World) (min_score max_articles : Z)
    (articles : list Article) :
  let work := to_fetch W min_score max_articles articles in
  StronglySorted ranked work /\
  Forall (fun r : ref => articles !! r.1 = Some r.2) work /\
  (0 <= max_articles -> Z.of_nat (length work) <= max_articles).
Proof.
  intros work. split_and!.
  - eapply StronglySorted_sublist; [apply list_slice_to_sublist|].
    apply sort_ranked, unique_earlier.
  - apply Forall_forall. intros r Hr. by eapply to_fetch_refs.
  - intros Hmax. subst work. unfold to_fetch, Py.list_slice_to.
    destruct (0 <=? max_articles) eqn:E; [|lia].
    rewrite length_take. lia.
Qed.

Lemma to_fetch_ranked_witness :
  Z.of_nat (length (to_fetch empty_markdown_world 10 2 three_articles)) <= 2.
Proof.
  apply (to_fetch_ranked empty_markdown_world 10 2 three_articles). lia.
Defined.

(** *** Deduplication (C9) *)

Lemma unique_from_fresh (seen_urls : gmap string ref) (l : list ref) (r : ref) :
  r ∈ unique_from seen_urls l -> seen_urls !! get_link r.2 = None /\ r ∈ l.
Proof.
  revert seen_urls. induction l as [|a l IH]; intros seen_urls; simpl.
  - by intros ?%elem_of_nil.
  - destruct (seen_urls !! get_link a.2) eqn:Hseen.
    + intros [Hf Hr]%IH. split; [done|by right].
    + intros [->|[Hf Hr]%IH]%elem_of_cons; [split; [done|by left]|].
      split; [|by right].
      destruct (decide (get_link a.2 = get_link r.2)) as [Heq|Hne].
      * rewrite Heq, lookup_insert_eq in Hf. done.
      * by rewrite lookup_insert_ne in Hf.
Qed.

(** No two entries of [unique] share a link. *)
Lemma unique_from_one_per_link (seen_urls : gmap string ref) (l : list ref) (r r' : ref) :
  r ∈ unique_from seen_urls l -> r' ∈ unique_from seen_urls l ->
  get_link r.2 = get_link r'.2 -> r = r'.
Proof.
  revert seen_urls. induction l as [|a l IH]; intros seen_urls; simpl.
  - by intros ?%elem_of_nil.
  - destruct (seen_urls !! get_link a.2) eqn:Hseen; [by apply IH|].
    intros [->|Hr]%elem_of_cons [->|Hr']%elem_of_cons Heq; [done| | |by eapply IH].
    + apply unique_from_fresh in Hr' as [Hf _].
      by rewrite <- Heq, lookup_insert_eq in Hf.
    + apply unique_from_fresh in Hr as [Hf _].
      by rewrite Heq, lookup_insert_eq in Hf.
Qed.

(** Every link not seen before keeps an entry, and that entry is the first
    of the list with the link. *)
Lemma unique_from_first (seen_urls : gmap string ref) (l : list ref) (s : ref) :
  StronglySorted earlier l ->
  s ∈ l -> seen_urls !! get_link s.2 = None ->
  exists r, r ∈ unique_from seen_urls l /\ get_link r.2 = get_link s.2 /\
            (r.1 <= s.1)%nat.
Proof.
  revert seen_urls. induction l as [|a l IH]; intros seen_urls Hs Hin Hfresh; simpl.
  - by apply elem_of_nil in Hin.
  - apply StronglySorted_cons in Hs as [Ha Hs].
    apply elem_of_cons in Hin as [->|Hin].
    + rewrite Hfresh. exists a. split_and!; [by left|done|lia].
    + destruct (seen_urls !! get_link a.2) eqn:Hseen; [by apply IH|].
      destruct (decide (get_link a.2 = get_link s.2)) as [Heq|Hne].
      * exists a. split_and!; [by left|done|].
        rewrite Forall_forall in Ha. specialize (Ha s Hin).
        unfold earlier in Ha. lia.
      * destruct (IH (<[get_link a.2 := a]> seen_urls) Hs Hin) as (r & Hr & Hl & Hle).
        { by rewrite lookup_insert_ne. }
        exists r. split_and!; [by right|done|done].
Qed.

(** Two candidates with one link and a third that outranks them. *)
Definition shared_link_articles : list Article :=
  [ Example.article "https://example.com/a" 12 "first";
    Example.article "https://example.com/a" 12 "again";
    Example.article "https://example.com/b" 20 "other" ].

(** C9, as stated, fails: two eligible articles share a link and the work
    list holds neither, because the cut to [max_articles] comes after the
    deduplication and has dropped the one that was kept. *)
Lemma to_fetch_keeps_one_counterexample :
  ~ (forall (W : World) (min_score max_articles : Z) (articles : list Article)
            (r s : ref),
       r ∈ eligible W min_score articles -> s ∈ eligible W min_score articles ->
       r <> s -> get_link r.2 = get_link s.2 ->
       exists t, t ∈ to_fetch W min_score max_articles articles /\
                 get_link t.2 = get_link r.2).
Proof.
  intros H.
  destruct (H empty_markdown_world 10 1 shared_link_articles
              (0%nat, Example.article "https://example.com/a" 12 "first")
              (1%nat, Example.article "https://example.com/a" 12 "again"))
    as (t & Ht & Hl).
  - apply elem_of_eligible. split_and!;
      [reflexivity | by eexists | vm_compute; reflexivity | left; by vm_compute].
  - apply elem_of_eligible. split_and!;
      [reflexivity | by eexists | vm_compute; reflexivity | left; by vm_compute].
  - intros [=].
  - reflexivity.
  - assert (to_fetch empty_markdown_world 10 1 shared_link_articles =
            [(2%nat, Example.article "https://example.com/b" 20 "other")]) as Heq
      by (vm_compute; reflexivity).
    rewrite Heq in Ht. apply list_elem_of_singleton in Ht as ->.
    vm_compute in Hl. discriminate.
Qed.

(** The work list is a prefix of the sorted list, of [max_articles] entries
    where that is not negative. *)
Lemma to_fetch_take (W : World) (min_score max_articles : Z) (articles : list Article) :
  exists k : nat,
    to_fetch W min_score max_articles articles =
      take k (Py.sort sort_key (unique W min_score articles)) /\
    (0 <= max_articles -> k = Z.to_nat max_articles).
Proof.
  unfold to_fetch, Py.list_slice_to.
  destruct (0 <=? max_articles) eqn:E.
  - by eexists.
  - eexists. split; [reflexivity|]. lia.
Qed.

(** With room for every deduplicated article the cut drops none. *)
Lemma to_fetch_uncut (W : World) (min_score max_articles : Z) (articles : list Article) :
  Z.of_nat (length (unique W min_score articles)) <= max_articles ->
  to_fetch W min_score max_articles articles =
    Py.sort sort_key (unique W min_score articles).
Proof.
  intros Hroom.
  destruct (to_fetch_take W min_score max_articles articles) as (k & -> & Hk).
  apply take_ge. rewrite (Permutation_length (sort_perm sort_key _)). lia.
Qed.

(** A deduplicated article the cut drops stands behind the whole work list,
    and the work list is full. *)
Lemma to_fetch_dropped (W : World) (min_score max_articles : Z)
    (articles : list Article) (r : ref) :
  r ∈ unique W min_score articles ->
  r ∉ to_fetch W min_score max_articles articles ->
  (forall t, t ∈ to_fetch W min_score max_articles articles -> ranked t r) /\
  (0 <= max_articles ->
   Z.of_nat (length (to_fetch W min_score max_articles articles)) = max_articles).
Proof.
  destruct (to_fetch_take W min_score max_articles articles) as (k & -> & Hk).
  set (sorted := Py.sort sort_key (unique W min_score articles)).
  intros Hr Hout.
  assert (r ∈ drop k sorted) as Hdrop.
  { assert (r ∈ (take k sorted ++ drop k sorted)%list) as Hin
      by (rewrite take_drop; unfold sorted; by rewrite sort_perm).
    apply elem_of_app in Hin as [Hin|Hin]; [by destruct Hout|done]. }
  split.
  - assert (StronglySorted ranked (take k sorted ++ drop k sorted)%list) as Hsorted.
    { rewrite take_drop. apply sort_ranked, unique_earlier. }
    intros t Ht. exact (StronglySorted_app_1_elem_of _ _ _ t r Hsorted Ht Hdrop).
  - intros Hpos. rewrite length_take.
    assert (k < length sorted)%nat as Hlt.
    { destruct (decide (k < length sorted)%nat) as [|Hge]; [done|].
      rewrite drop_ge in Hdrop by lia. by apply elem_of_nil in Hdrop. }
    rewrite (Hk Hpos) in *. lia.
Qed.

(** C9, amended: the deduplicated list holds, for every link of an eligible
    article, exactly one article with that link, and it is the first
    eligible one with it in the order of the collection.  The work list is
    a part of the deduplicated list, so of the eligible articles that share
    a link it holds at most one, and never another than the first.  It holds
    that first one whenever the deduplicated list has at most
    [max_articles] entries; and where it does not hold it, every entry of
    the work list ranks before it (a score not lower, and on a tie an
    earlier place in the collection) and, [max_articles] not being negative,
    the work list has [max_articles] entries. *)
Theorem unique_first_of_link (W : World) (min_score max_articles : Z)
    (articles : list Article) :
  let candidates := eligible W min_score articles in
  let kept := unique W min_score articles in
  let work := to_fetch W min_score max_articles articles in
  work ⊆ kept /\ kept ⊆ candidates /\
  (forall r r', r ∈ kept -> r' ∈ kept -> get_link r.2 = get_link r'.2 -> r = r') /\
  (forall s, s ∈ candidates ->
     exists r, r ∈ kept /\ get_link r.2 = get_link s.2 /\
       (forall s', s' ∈ candidates -> get_link s'.2 = get_link s.2 ->
                   (r.1 <= s'.1)%nat) /\
       (Z.of_nat (length kept) <= max_articles -> r ∈ work) /\
       (r ∉ work ->
          (forall t, t ∈ work -> ranked t r) /\
          (0 <= max_articles -> Z.of_nat (length work) = max_articles))).
Proof.
  intros candidates kept work. split_and!.
  - apply to_fetch_subseteq.
  - apply unique_subseteq.
  - intros r r'. apply unique_from_one_per_link.
  - intros s Hs.
    destruct (unique_from_first ∅ candidates s) as (r & Hr & Hl & _);
      [apply eligible_earlier | done | apply lookup_empty |].
    exists r. split_and!; [done..| | |].
    + intros s' Hs' Hl'.
      destruct (unique_from_first ∅ candidates s') as (r' & Hr' & Hlr' & Hle);
        [apply eligible_earlier | done | apply lookup_empty |].
      assert (r = r') as <-; [|done].
      eapply unique_from_one_per_link; [exact Hr | exact Hr' | congruence].
    + intros Hroom. unfold work. rewrite to_fetch_uncut by done.
      by rewrite sort_perm.
    + by apply to_fetch_dropped.
Qed.

(** The amended property at the two articles that share a link, with room
    for the whole deduplicated list: the work list holds the first. *)
Lemma unique_first_of_link_witness :
  exists r : ref,
    r ∈ to_fetch empty_markdown_world 10 15 shared_link_articles /\
    get_link r.2 = "https://example.com/a" /\
    forall s', s' ∈ eligible empty_markdown_world 10 shared_link_articles ->
               get_link s'.2 = "https://example.com/a" -> (r.1 <= s'.1)%nat.
Proof.
  destruct (unique_first_of_link empty_markdown_world 10 15 shared_link_articles)
    as (_ & _ & _ & H).
  destruct (H (1%nat, Example.article "https://example.com/a" 12 "again"))
    as (r & _ & Hl & Hfirst & Hroom & _).
  - apply elem_of_eligible. split_and!;
      [reflexivity | by eexists | vm_compute; reflexivity | left; by vm_compute].
  - exists r. split_and!; [|exact Hl|exact Hfirst].
    apply Hroom. by vm_compute.
Defined.

(** ** Orchestrator *)

(** *** Completion order *)

Lemma insert_at_perm {A} (k : nat) (x : A) (l : list A) : insert_at k x l ≡ₚ x :: l.
Proof.
  revert k. induction l as [|y l IH]; intros [|k]; simpl; try done.
  rewrite IH. apply Permutation_swap.
Qed.

(** Whatever the order, every future completes once. *)
Lemma as_completed_perm {A} (order : list nat) (futures : list A) :
  as_completed order futures ≡ₚ futures.
Proof.
  revert order. induction futures as [|f l IH]; intros order; simpl; [done|].
  by rewrite insert_at_perm, IH.
Qed.

(** *** The collecting loop *)

Lemma collect_attempted (t : Tally) (f : string * FetchOutcome) :
  attempted (collect t f) = attempted t + 1.
Proof. unfold collect. by destruct (nonempty (text f.2)). Qed.

Lemma collect_results (t : Tally) (f : string * FetchOutcome) :
  results (collect t f) = <[f.1 := f.2]> (results t).
Proof. unfold collect. by destruct (nonempty (text f.2)). Qed.

(** The counters' invariant. *)
Definition counted (t : Tally) : Prop :=
  0 <= cf_count t /\ cf_count t <= success t /\ success t <= attempted t.

Lemma collect_counted (t : Tally) (f : string * FetchOutcome) :
  counted t -> counted (collect t f).
Proof.
  unfold counted, collect. intros (H1 & H2 & H3).
  destruct (nonempty (text f.2)); cbn [attempted success cf_count].
  - destruct (method f.2); lia.
  - lia.
Qed.

Lemma fold_collect_counted (l : list (string * FetchOutcome)) (t : Tally) :
  counted t -> counted (fold_left collect l t).
Proof.
  revert t. induction l as [|f l IH]; intros t Ht; simpl; [done|].
  by apply IH, collect_counted.
Qed.

Lemma fold_collect_attempted (l : list (string * FetchOutcome)) (t : Tally) :
  attempted (fold_left collect l t) = attempted t + Z.of_nat (length l).
Proof.
  revert t. induction l as [|f l IH]; intros t; simpl; [lia|].
  rewrite IH, collect_attempted. lia.
Qed.

(** An entry of the outcome map was there before or comes from a future. *)
Lemma fold_collect_results (l : list (string * FetchOutcome)) (t : Tally)
    (url : string) (o : FetchOutcome) :
  results (fold_left collect l t) !! url = Some o ->
  results t !! url = Some o \/ (url, o) ∈ l.
Proof.
  revert t. induction l as [|f l IH]; intros t; simpl; [by left|].
  intros [Hf|Hin]%IH; [|right; by right].
  rewrite collect_results in Hf.
  destruct (decide (f.1 = url)) as [<-|Hne].
  - rewrite lookup_insert_eq in Hf. injection Hf as <-.
    right. rewrite <- surjective_pairing. by left.
  - rewrite lookup_insert_ne in Hf by done. by left.
Qed.

(** The outcome map of a run holds, under the link of a work-list entry,
    what [fetch_full_text] returned for that link, and nothing else. *)
Lemma run_results (W : World) (max_chars : Z) (work : list ref)
    (url : string) (o : FetchOutcome) :
  results (fold_left collect
             (as_completed (completion W) (map (submit W max_chars) work)) tally0)
    !! url = Some o ->
  o = fetch_full_text W url max_chars /\
  exists r, r ∈ work /\ get_link r.2 = url.
Proof.
  intros [Hf|Hin]%fold_collect_results.
  - cbn [tally0 results] in Hf. by rewrite lookup_empty in Hf.
  - rewrite as_completed_perm in Hin.
    apply list_elem_of_fmap in Hin as (r & [= -> ->] & Hr). eauto.
Qed.

(** *** Counters (C7) *)

Lemma enrich_articles_empty (W : World) (articles : list Article)
    (min_score max_articles max_chars : Z) :
  to_fetch W min_score max_articles articles = [] ->
  enrich_articles W articles min_score max_articles max_chars =
  {| articles_after := articles; returned := (0, 0, 0); submitted := [] |}.
Proof. intros H. unfold enrich_articles. by rewrite H. Qed.

Lemma enrich_articles_nonempty (W : World) (articles : list Article)
    (min_score max_articles max_chars : Z) :
  to_fetch W min_score max_articles articles <> [] ->
  let work := to_fetch W min_score max_articles articles in
  let t := fold_left collect
             (as_completed (completion W) (map (submit W max_chars) work)) tally0 in
  enrich_articles W articles min_score max_articles max_chars =
  {| articles_after := map (apply_result (results t)) articles;
     returned := (attempted t, success t, cf_count t);
     submitted := map fst (map (submit W max_chars) work) |}.
Proof.
  intros H. cbv zeta. unfold enrich_articles.
  destruct (to_fetch W min_score max_articles articles); [done|reflexivity].
Qed.

(** C7: the returned counters satisfy [success <= attempted] and
    [cf_markdown <= success] (and none is negative, and [attempted] counts
    the fetches submitted); when the work list is empty the call returns
    [(0, 0, 0)], submits no fetch and leaves the collection as it was. *)
Theorem enrich_counters (W : World) (articles : list Article)
    (min_score max_articles max_chars : Z) :
  let run := enrich_articles W articles min_score max_articles max_chars in
  let attempted_ := (returned run).1.1 in
  let success_ := (returned run).1.2 in
  let cf_markdown := (returned run).2 in
  0 <= cf_markdown /\ cf_markdown <= success_ /\ success_ <= attempted_ /\
  attempted_ = Z.of_nat (length (submitted run)) /\
  (to_fetch W min_score max_articles articles = [] ->
   returned run = (0, 0, 0) /\ submitted run = [] /\ articles_after run = articles).
Proof.
  cbv zeta.
  destruct (decide (to_fetch W min_score max_articles articles = [])) as [He|Hne].
  - rewrite (enrich_articles_empty _ _ _ _ _ He). cbn. split_and!; done.
  - rewrite (enrich_articles_nonempty _ _ _ _ _ Hne).
    cbn [returned submitted articles_after fst snd].
    set (futures := map (submit W max_chars) _).
    pose proof (fold_collect_counted (as_completed (completion W) futures) tally0)
      as (H1 & H2 & H3); [unfold counted, tally0; cbn; lia|].
    split_and!; [done..| |done].
    rewrite fold_collect_attempted, length_map.
    rewrite (Permutation_length (as_completed_perm _ _)). cbn. lia.
Qed.

(** A collection with nothing to fetch: the one article has a full text. *)
Definition enriched_articles : list Article :=
  [ {| link := Some "https://example.com/a"; quality_score := Some 15;
       fields := {[ "full_text" := VStr "Already fetched." ]} |} ].

Lemma enrich_counters_witness :
  returned (enrich_articles empty_markdown_world enriched_articles 10 15 2000) = (0, 0, 0) /\
  submitted (enrich_articles empty_markdown_world enriched_articles 10 15 2000) = [] /\
  articles_after (enrich_articles empty_markdown_world enriched_articles 10 15 2000)
    = enriched_articles.
Proof.
  apply (enrich_counters empty_markdown_world enriched_articles 10 15 2000).
  vm_compute. reflexivity.
Defined.

(** *** What the last loop writes (C3, C10) *)

(** The keys the last loop assigns. *)
Definition written_keys : list string :=
  ["full_text"; "full_text_method"; "full_text_tokens"].

Lemma get_set_field_ne (key : string) (v : value) (a : Article) (k : string) :
  k <> key -> get (set_field key v a) k = get a k.
Proof.
  intros Hne. unfold get, set_field. cbn [link quality_score fields].
  destruct (String.eqb k "link"); [done|].
  destruct (String.eqb k "quality_score"); [done|].
  by rewrite lookup_insert_ne.
Qed.

Lemma apply_result_frame (res : gmap string FetchOutcome) (a : Article) (k : string) :
  k ∉ written_keys -> get (apply_result res a) k = get a k.
Proof.
  unfold written_keys. rewrite !not_elem_of_cons. intros (H1 & H2 & H3 & _).
  unfold apply_result. destruct (res !! get_link a) as [r|]; [|done].
  destruct (nonempty (text r)); [|done].
  by rewrite !get_set_field_ne.
Qed.

Lemma apply_result_untouched (res : gmap string FetchOutcome) (a : Article) :
  (forall r, res !! get_link a = Some r -> text r = "") ->
  apply_result res a = a.
Proof.
  intros H. unfold apply_result.
  destruct (res !! get_link a) as [r|]; [|done].
  by rewrite (H r eq_refl).
Qed.

(** C10: the call keeps the number of articles and each article's place;
    for every article, every key other than [full_text], [full_text_method]
    and [full_text_tokens] has afterwards the value it had before. *)
Theorem enrich_frame (W : World) (articles : list Article)
    (min_score max_articles max_chars : Z) :
  let after := articles_after
                 (enrich_articles W articles min_score max_articles max_chars) in
  length after = length articles /\
  forall (i : nat) (a : Article), articles !! i = Some a ->
    exists a', after !! i = Some a' /\
      forall k, k ∉ written_keys -> get a' k = get a k.
Proof.
  cbv zeta.
  destruct (decide (to_fetch W min_score max_articles articles = [])) as [He|Hne].
  - rewrite (enrich_articles_empty _ _ _ _ _ He). cbn [articles_after].
    split; [done|]. intros i a Hi. eauto.
  - rewrite (enrich_articles_nonempty _ _ _ _ _ Hne). cbn [articles_after].
    split; [apply length_map|].
    intros i a Hi. eexists. split.
    + rewrite list_lookup_fmap, Hi. reflexivity.
    + intros k Hk. by apply apply_result_frame.
Qed.

(** A server that answers every request with a markdown document. *)
Definition markdown_world : World :=
  Example.world (fun _ => Example.markdown "" "# Title") [].

Lemma enrich_frame_witness :
  exists a',
    articles_after (enrich_articles markdown_world three_articles 10 15 2000) !! 0%nat
      = Some a' /\
    forall k, k ∉ written_keys ->
      get a' k = get (Example.article "https://example.com/a" 15 "A") k.
Proof.
  destruct (enrich_frame markdown_world three_articles 10 15 2000) as [_ H].
  apply (H 0%nat). reflexivity.
Defined.

(** C3, as stated, fails: an article that is not in the work list is
    rewritten when it has the link of one that is.  Of two candidates with
    one link the second is dropped from the work list, and the last loop,
    which goes by link, gives it the full text all the same. *)
Lemma enrich_outside_work_list_counterexample :
  ~ (forall (W : World) (articles : list Article)
            (min_score max_articles max_chars : Z) (i : nat) (a : Article),
       articles !! i = Some a ->
       (i, a) ∉ to_fetch W min_score max_articles articles ->
       articles_after (enrich_articles W articles min_score max_articles max_chars) !! i
         = Some a).
Proof.
  intros H.
  specialize (H markdown_world shared_link_articles 10 15 2000 1%nat
                (Example.article "https://example.com/a" 12 "again") eq_refl).
  assert (to_fetch markdown_world 10 15 shared_link_articles =
          [(2%nat, Example.article "https://example.com/b" 20 "other");
           (0%nat, Example.article "https://example.com/a" 12 "first")]) as Hwork
    by (vm_compute; reflexivity).
  rewrite Hwork in H.
  assert (articles_after (enrich_articles markdown_world shared_link_articles 10 15 2000)
            !! 1%nat ≫= (fun a => fields a !! "full_text") = Some (VStr "# Title")) as Hafter
    by (vm_compute; reflexivity).
  rewrite H in Hafter.
  - vm_compute in Hafter. discriminate.
  - rewrite !not_elem_of_cons. split_and!; [intros [=] | intros [=] | apply not_elem_of_nil].
Qed.

(** C3, amended: an article whose link is the link of no entry of the work
    list, or whose link's outcome has an empty text, is left as it was. *)
Theorem enrich_untouched (W : World) (articles : list Article)
    (min_score max_articles max_chars : Z) (i : nat) (a : Article) :
  articles !! i = Some a ->
  (forall r, r ∈ to_fetch W min_score max_articles articles ->
             get_link r.2 <> get_link a) \/
  text (fetch_full_text W (get_link a) max_chars) = "" ->
  articles_after (enrich_articles W articles min_score max_articles max_chars) !! i
    = Some a.
Proof.
  intros Hi Hcase.
  destruct (decide (to_fetch W min_score max_articles articles = [])) as [He|Hne].
  - by rewrite (enrich_articles_empty _ _ _ _ _ He).
  - rewrite (enrich_articles_nonempty _ _ _ _ _ Hne). cbn [articles_after].
    rewrite list_lookup_fmap, Hi. cbn. f_equal.
    apply apply_result_untouched. intros o Ho.
    apply run_results in Ho as (-> & r & Hr & Hl).
    destruct Hcase as [Hout|Hempty]; [|done].
    by destruct (Hout r Hr).
Qed.

Lemma enrich_untouched_witness :
  articles_after (enrich_articles markdown_world three_articles 10 2 2000) !! 2%nat
    = Some (Example.article "https://example.com/c" 11 "C").
Proof.
  apply (enrich_untouched markdown_world three_articles 10 2 2000 2%nat);
    [reflexivity|].
  left. intros r Hr.
  assert (to_fetch markdown_world 10 2 three_articles =
          [(0%nat, Example.article "https://example.com/a" 15 "A");
           (1%nat, Example.article "https://example.com/b" 12 "B")]) as Hwork
    by (vm_compute; reflexivity).
  rewrite Hwork in Hr.
  apply elem_of_cons in Hr as [->|Hr]; [discriminate|].
  apply list_elem_of_singleton in Hr as ->. discriminate.
Defined.

(** * Further properties of the code *)

(** ** Content fetcher *)

(** (X1) A URL whose domain is in the skip list is answered before the
    [try] block: the outcome is the skipped one, naming the domain, whatever
    the network, the decoders and the budget are. *)
Theorem fetch_skipped_without_network (W W' : World) (url : string)
    (max_chars max_chars' : Z) :
  urlparse_netloc W' url = urlparse_netloc W url ->
  get_domain W url ∈ SKIP_DOMAINS ->
  fetch_full_text W url max_chars =
    {| text := ""; method := Skipped; tokens := 0;
       error := Some ("domain " ++ get_domain W url ++ " in skip list") |} /\
  fetch_full_text W' url max_chars' = fetch_full_text W url max_chars.
Proof.
  intros Hparse Hskip.
  assert (get_domain W' url = get_domain W url) as Hdom
    by (unfold get_domain; by rewrite Hparse).
  unfold fetch_full_text. rewrite Hdom.
  by rewrite !bool_decide_eq_true_2.
Qed.

Lemma fetch_skipped_without_network_witness :
  fetch_full_text markdown_world "https://old.reddit.com/r/rust" 2000 =
    {| text := ""; method := Skipped; tokens := 0;
       error := Some ("domain " ++
                      get_domain markdown_world "https://old.reddit.com/r/rust" ++
                      " in skip list") |} /\
  fetch_full_text certificate_world "https://old.reddit.com/r/rust" 0 =
  fetch_full_text markdown_world "https://old.reddit.com/r/rust" 2000.
Proof.
  apply (fetch_skipped_without_network markdown_world certificate_world
           "https://old.reddit.com/r/rust" 2000 0);
    [reflexivity|].
  eapply (bool_decide_eq_true_1 _). vm_compute. reflexivity.
Defined.

(** (X2) A budget that is not negative is respected: the text of every
    outcome has at most [max_chars] characters. *)
Theorem fetch_text_within_budget (W : World) (url : string) (max_chars : Z) :
  0 <= max_chars -> Py.len (text (fetch_full_text W url max_chars)) <= max_chars.
Proof.
  intros Hmax.
  destruct (fetch_full_text_paths W url max_chars)
    as [(_ & Ht & _)|[(_ & Ht & _)|[(_ & Ht & _)|[(_ & _ & d & Ht)|(_ & _ & e & _ & Ht)]]]];
    rewrite Ht; first [by apply len_slice_to_le | by vm_compute in Hmax |- *].
Qed.

Lemma fetch_text_within_budget_witness :
  Py.len (text (fetch_full_text markdown_world "https://example.com/post" 3)) <= 3.
Proof.
  apply (fetch_text_within_budget markdown_world "https://example.com/post" 3). lia.
Defined.

(** (X3) With a budget of at least 100 characters, an html-extract outcome
    has at least 100 characters of text and at least 25 tokens: shorter
    extractions are answered html-too-short. *)
Theorem fetch_html_extract_floor (W : World) (url : string) (max_chars : Z) :
  100 <= max_chars ->
  method (fetch_full_text W url max_chars) = HtmlExtract ->
  100 <= Py.len (text (fetch_full_text W url max_chars)) /\
  25 <= tokens (fetch_full_text W url max_chars).
Proof.
  intros Hmax Hm.
  destruct (fetch_full_text_paths W url max_chars)
    as [(Hm' & _)|[(Hm' & _)|[(Hm' & _)|[(Hm' & _)|(_ & Hk & e & He & Ht)]]]];
    try congruence.
  assert (100 <= Py.len (text (fetch_full_text W url max_chars))) as Hlen.
  { rewrite Ht, len_slice_to. destruct (0 <=? max_chars) eqn:E; lia. }
  split; [done|]. rewrite Hk.
  apply (Z.div_le_lower_bound _ 4 25); lia.
Qed.

(** A server that answers every request with a page of plain text. *)
Definition long_page : string :=
  "The quick brown fox jumps over the lazy dog while the verification engineer reads the source once more, line by line.".

Definition long_page_world : World :=
  Example.world
    (fun _ => inr {| content_type := "text/html; charset=utf-8"; token_header := "";
                     body := list_byte_of_string long_page |}) [].

Lemma fetch_html_extract_floor_witness :
  100 <= Py.len (text (fetch_full_text long_page_world "https://example.com/post" 2000)) /\
  25 <= tokens (fetch_full_text long_page_world "https://example.com/post" 2000).
Proof.
  apply (fetch_html_extract_floor long_page_world "https://example.com/post" 2000);
    [lia | vm_compute; reflexivity].
Defined.

(** (X4) No failure of the request leaves [fetch_full_text]: for a URL off
    the skip list, an exception of any of the three classes gives the error
    outcome, with no text, no tokens and the description of its arm. *)
Theorem fetch_raised_is_error_outcome (W : World) (url : string) (max_chars : Z)
    (e : Raised) :
  get_domain W url ∉ SKIP_DOMAINS ->
  urlopen W url = inl e ->
  fetch_full_text W url max_chars =
  {| text := ""; method := Error; tokens := 0; error := Some (description e) |}.
Proof. apply fetch_full_text_raised. Qed.

Lemma fetch_raised_is_error_outcome_witness :
  fetch_full_text certificate_world "https://intranet.example.org/post" 2000 =
  {| text := ""; method := Error; tokens := 0;
     error := Some (description (URLError certificate_reason)) |}.
Proof.
  apply (fetch_raised_is_error_outcome certificate_world
           "https://intranet.example.org/post" 2000 (URLError certificate_reason));
    [|reflexivity].
  eapply (bool_decide_eq_false_1 _). vm_compute. reflexivity.
Defined.






(** (X6) A body that starts with the gzip magic bytes and does not
    decompress makes the fetch an error outcome, described by the first 100
    characters of the decompressor's message, whatever the content type. *)
Theorem fetch_bad_gzip_is_error (W : World) (url : string) (max_chars : Z)
    (resp : Response) (msg : string) :
  get_domain W url ∉ SKIP_DOMAINS ->
  urlopen W url = inr resp ->
  is_gzip (body resp) = true ->
  gzip_decompress W (body resp) = inl msg ->
  fetch_full_text W url max_chars =
  {| text := ""; method := Error; tokens := 0; error := Some (Py.slice_to 100 msg) |}.
Proof.
  intros Hskip Hopen Hmagic Hfail. unfold fetch_full_text, fetch_try.
  rewrite bool_decide_eq_false_2 by done.
  by rewrite Hopen, Hmagic, Hfail.
Qed.

Definition truncated_gzip_world : World :=
  Example.world
    (fun _ => inr {| content_type := "text/html"; token_header := "";
                     body := [x1f; x8b; x08; x00] |}) [].

Lemma fetch_bad_gzip_is_error_witness :
  fetch_full_text truncated_gzip_world "https://example.com/post" 2000 =
  {| text := ""; method := Error; tokens := 0;
     error := Some (Py.slice_to 100 "Not a gzipped file") |}.
Proof.
  apply (fetch_bad_gzip_is_error truncated_gzip_world "https://example.com/post" 2000
           {| content_type := "text/html"; token_header := "";
              body := [x1f; x8b; x08; x00] |});
    [|reflexivity..].
  eapply (bool_decide_eq_false_1 _). vm_compute. reflexivity.
Defined.

(** (X7) The markdown path.  For a response whose content type mentions
    [text/markdown], the text is the decoded body cut to the budget, and
    tokens is the value of the token header when that is a decimal number
    that [int] accepts (of 4300 digits at most), and a quarter of the
    decoded length (before the cut) when the header is not all digits. *)
Theorem fetch_markdown_outcome (W : World) (url : string) (max_chars : Z)
    (resp : Response) (raw : list byte) (n : Z) :
  get_domain W url ∉ SKIP_DOMAINS ->
  urlopen W url = inr resp ->
  (if is_gzip (body resp) then gzip_decompress W (body resp) else inr (body resp))
    = inr raw ->
  Py.contains "text/markdown" (content_type resp) = true ->
  (if Py.isdigit (token_header resp) then Py.int (token_header resp) = Some n
   else n = Py.len (decode_utf8 W raw) / 4) ->
  fetch_full_text W url max_chars =
  {| text := Py.slice_to max_chars (decode_utf8 W raw); method := CfMarkdown;
     tokens := n; error := None |}.
Proof.
  intros Hskip Hopen Hraw Hct Hn. unfold fetch_full_text, fetch_try.
  rewrite bool_decide_eq_false_2 by done.
  rewrite Hopen, Hraw, Hct.
  destruct (Py.isdigit (token_header resp)); by rewrite Hn.
Qed.

Definition counted_markdown_world : World :=
  Example.world (fun _ => Example.markdown "321" "# Title") [].

Lemma fetch_markdown_outcome_witness :
  fetch_full_text counted_markdown_world "https://example.com/post" 5 =
  {| text := Py.slice_to 5 (decode_utf8 counted_markdown_world
                              (list_byte_of_string "# Title"));
     method := CfMarkdown; tokens := 321; error := None |}.
Proof.
  apply (fetch_markdown_outcome counted_markdown_world "https://example.com/post" 5
           {| content_type := "text/markdown; charset=utf-8"; token_header := "321";
              body := list_byte_of_string "# Title" |});
    [|reflexivity..].
  eapply (bool_decide_eq_false_1 _). vm_compute. reflexivity.
Defined.

(** (X8) A token header that [str.isdigit] accepts and [int] rejects (a
    superscript digit, or more than 4300 digits) turns a markdown response
    into an error outcome: the [ValueError] is caught by the last arm. *)
Theorem fetch_markdown_bad_token_header (W : World) (url : string) (max_chars : Z)
    (resp : Response) (raw : list byte) :
  get_domain W url ∉ SKIP_DOMAINS ->
  urlopen W url = inr resp ->
  (if is_gzip (body resp) then gzip_decompress W (body resp) else inr (body resp))
    = inr raw ->
  Py.contains "text/markdown" (content_type resp) = true ->
  Py.isdigit (token_header resp) = true ->
  Py.int (token_header resp) = None ->
  method (fetch_full_text W url max_chars) = Error /\
  text (fetch_full_text W url max_chars) = "" /\
  tokens (fetch_full_text W url max_chars) = 0.
Proof.
  intros Hskip Hopen Hraw Hct Hdigit Hint. unfold fetch_full_text, fetch_try.
  rewrite bool_decide_eq_false_2 by done.
  by rewrite Hopen, Hraw, Hct, Hdigit, Hint.
Qed.

(** The one-character header U+00B2, superscript two. *)
Definition superscript_two : string := String (ascii_of_N 178) EmptyString.

Definition superscript_world : World :=
  Example.world (fun _ => Example.markdown superscript_two "# Title") [].

Lemma fetch_markdown_bad_token_header_witness :
  method (fetch_full_text superscript_world "https://example.com/post" 2000) = Error /\
  text (fetch_full_text superscript_world "https://example.com/post" 2000) = "" /\
  tokens (fetch_full_text superscript_world "https://example.com/post" 2000) = 0.
Proof.
  apply (fetch_markdown_bad_token_header superscript_world "https://example.com/post" 2000
           {| content_type := "text/markdown; charset=utf-8";
              token_header := superscript_two;
              body := list_byte_of_string "# Title" |}
           (list_byte_of_string "# Title"));
    [|reflexivity..].
  eapply (bool_decide_eq_false_1 _). vm_compute. reflexivity.
Defined.

(** A literal of decimal digits is all digits, and leads with all of them. *)
Lemma all_decimal_isdigit (s : string) :
  s <> "" -> Py.all_chars Py.is_decimal s = true -> Py.isdigit s = true.
Proof.
  intros Hne Hall. destruct s as [|c s]; [done|]. unfold Py.isdigit.
  revert Hall. generalize (String c s). clear. intros s.
  induction s as [|c s IH]; simpl; [done|].
  rewrite andb_true_iff. intros [Hc Hs].
  unfold Py.is_digit_char. rewrite Hc. simpl. auto.
Qed.

Lemma all_decimal_leading (s : string) :
  Py.all_chars Py.is_decimal s = true -> Py.leading_decimals s = String.length s.
Proof.
  induction s as [|c s IH]; simpl; [done|].
  rewrite andb_true_iff. intros [-> Hs]. by rewrite IH.
Qed.

(** (X23) A token header of more than 4300 decimal digits turns a markdown
    response into an error outcome: [int] refuses a literal that long, and
    the description is the first 100 characters of its message. *)
Theorem fetch_markdown_token_header_over_limit (W : World) (url : string)
    (max_chars : Z) (resp : Response) (raw : list byte) :
  get_domain W url ∉ SKIP_DOMAINS ->
  urlopen W url = inr resp ->
  (if is_gzip (body resp) then gzip_decompress W (body resp) else inr (body resp))
    = inr raw ->
  Py.contains "text/markdown" (content_type resp) = true ->
  Py.all_chars Py.is_decimal (token_header resp) = true ->
  (4300 < String.length (token_header resp))%nat ->
  fetch_full_text W url max_chars =
  {| text := ""; method := Error; tokens := 0;
     error := Some (Py.slice_to 100
                      ("Exceeds the limit (4300 digits) for integer string conversion: value has "
                       ++ Py.str_int (Z.of_nat (String.length (token_header resp)))
                       ++ " digits; use sys.set_int_max_str_digits() to increase the limit")) |}.
Proof.
  intros Hskip Hopen Hraw Hct Hall Hlen. unfold fetch_full_text, fetch_try.
  rewrite bool_decide_eq_false_2 by done.
  rewrite Hopen, Hraw, Hct.
  assert (token_header resp <> "") as Hne.
  { intros He. rewrite He in Hlen. simpl in Hlen. lia. }
  rewrite (all_decimal_isdigit _ Hne Hall).
  assert (Py.int (token_header resp) = None) as ->.
  { unfold Py.int. destruct (token_header resp) as [|c h]; [done|].
    unfold Py.max_str_digits.
    by rewrite (proj2 (Nat.ltb_lt _ _) Hlen). }
  unfold Py.int_error. rewrite (all_decimal_leading _ Hall).
  unfold Py.max_str_digits.
  by rewrite (proj2 (Nat.ltb_lt _ _) Hlen).
Qed.

(** A header of [n] digits 1. *)
Fixpoint ones (n : nat) : string :=
  match n with
  | O => EmptyString
  | S n' => String "1" (ones n')
  end.

Definition over_limit_world : World :=
  Example.world (fun _ => Example.markdown (ones 4301) "# Title") [].

Lemma fetch_markdown_token_header_over_limit_witness :
  fetch_full_text over_limit_world "https://example.com/post" 2000 =
  {| text := ""; method := Error; tokens := 0;
     error := Some "Exceeds the limit (4300 digits) for integer string conversion: value has 4301 digits; use sys.set_in" |}.
Proof.
  apply (fetch_markdown_token_header_over_limit over_limit_world
           "https://example.com/post" 2000
           {| content_type := "text/markdown; charset=utf-8";
              token_header := ones 4301;
              body := list_byte_of_string "# Title" |}
           (list_byte_of_string "# Title")).
  - eapply (bool_decide_eq_false_1 _). vm_compute. reflexivity.
  - reflexivity.
  - reflexivity.
  - reflexivity.
  - vm_compute. reflexivity.
  - vm_compute. reflexivity.
Defined.

(** ** Text extractor *)

Module TextFacts.
Import TextExtractor.

Definition tab : string := String (ascii_of_N 9) EmptyString.
Definition two_spaces : string := "  ".
Definition two_newlines : string := newline ++ newline.
Definition three_newlines : string := newline ++ newline ++ newline.

(** [s[0]] and [s[-1]], where the string has them. *)
Definition first (s : string) : option ascii :=
  match s with
  | EmptyString => None
  | String c _ => Some c
  end.

Fixpoint last (s : string) : option ascii :=
  match s with
  | EmptyString => None
  | String c EmptyString => Some c
  | String _ rest => last rest
  end.

(** *** Characters *)

Lemma is_newline_eqb (c : ascii) : Ascii.eqb (ascii_of_N 10) c = is_newline c.
Proof. by destruct c as [[] [] [] [] [] [] [] []]. Qed.

Lemma is_blank_eqb (c : ascii) :
  is_blank c = Ascii.eqb " " c || Ascii.eqb (ascii_of_N 9) c.
Proof. by destruct c as [[] [] [] [] [] [] [] []]. Qed.

Lemma newline_not_blank (c : ascii) : is_newline c = true -> is_blank c = false.
Proof. by destruct c as [[] [] [] [] [] [] [] []]. Qed.

(** *** Substrings *)

Lemma contains_cons (p : string) (c : ascii) (s : string) :
  Py.contains p (String c s) = Py.startswith p (String c s) || Py.contains p s.
Proof. reflexivity. Qed.

Lemma contains_tail (p : string) (c : ascii) (s : string) :
  Py.contains p (String c s) = false -> Py.contains p s = false.
Proof. rewrite contains_cons. by intros [_ ?]%orb_false_elim. Qed.

Lemma startswith_app (p s t : string) :
  Py.startswith p s = true -> Py.startswith p (s ++ t) = true.
Proof.
  revert s. induction p as [|a p IH]; intros s; [by destruct s|].
  destruct s as [|b s]; [done|]. simpl.
  intros [-> ?]%andb_prop. simpl. by apply IH.
Qed.

Lemma contains_app (p s t : string) :
  Py.contains p s = true -> Py.contains p (s ++ t) = true.
Proof.
  induction s as [|c s IH].
  - simpl. rewrite orb_false_r. intros H.
    destruct p; [by destruct t|done].
  - rewrite contains_cons. intros [H|H]%orb_prop.
    + change (String c s ++ t) with (String c (s ++ t)).
      rewrite contains_cons. change (String c (s ++ t)) with (String c s ++ t).
      by rewrite startswith_app.
    + change (String c s ++ t) with (String c (s ++ t)).
      rewrite contains_cons, IH by done. apply orb_true_r.
Qed.

(** *** [strip] *)

Lemma lstrip_space_suffix (p s : string) :
  Py.contains p s = false -> Py.contains p (lstrip_space s) = false.
Proof.
  induction s as [|c s IH]; [done|]. intros H. simpl.
  destruct (is_space c); [|done]. by eapply IH, contains_tail.
Qed.

Lemma rstrip_space_prefix (s : string) : exists t, s = rstrip_space s ++ t.
Proof.
  induction s as [|c s [t IH]]; [by exists ""|]. simpl.
  destruct (rstrip_space s) as [|d kept] eqn:E.
  - destruct (is_space c); [by eexists|].
    exists t. simpl in IH. by rewrite IH at 1.
  - exists t. rewrite IH at 1. reflexivity.
Qed.

Lemma rstrip_space_contains (p s : string) :
  Py.contains p s = false -> Py.contains p (rstrip_space s) = false.
Proof.
  intros H. destruct (Py.contains p (rstrip_space s)) eqn:E; [|done].
  destruct (rstrip_space_prefix s) as [t Ht].
  rewrite Ht, contains_app in H; done.
Qed.

Lemma strip_contains (p s : string) :
  Py.contains p s = false -> Py.contains p (strip s) = false.
Proof. intros H. by apply rstrip_space_contains, lstrip_space_suffix. Qed.

(** *** The two substitutions *)

Lemma startswith_cons (a : ascii) (p : string) (b : ascii) (s : string) :
  Py.startswith (String a p) (String b s) = Ascii.eqb a b && Py.startswith p s.
Proof. reflexivity. Qed.

Lemma startswith_nil (s : string) : Py.startswith "" s = true.
Proof. by destruct s. Qed.

Lemma collapse_blanks_no_tab (in_run : bool) (s : string) :
  Py.contains tab (collapse_blanks in_run s) = false.
Proof.
  revert in_run. induction s as [|c s IH]; intros in_run; [done|].
  cbn [collapse_blanks]. destruct (is_blank c) eqn:Hc.
  - destruct in_run; [done|].
    rewrite contains_cons, IH. reflexivity.
  - rewrite contains_cons, IH.
    rewrite is_blank_eqb in Hc. apply orb_false_elim in Hc as [_ Hc].
    unfold tab. by rewrite startswith_cons, Hc.
Qed.

Lemma collapse_blanks_no_run (in_run : bool) (s : string) :
  Py.contains two_spaces (collapse_blanks in_run s) = false /\
  (in_run = true -> Py.startswith " " (collapse_blanks in_run s) = false).
Proof.
  revert in_run. induction s as [|c s IH]; intros in_run.
  - split; [done|]. by intros _.
  - cbn [collapse_blanks]. destruct (is_blank c) eqn:Hc.
    + destruct in_run; [apply IH|].
      destruct (IH true) as [H1 H2]. split; [|done].
      rewrite contains_cons, H1. unfold two_spaces.
      by rewrite startswith_cons, (H2 eq_refl).
    + destruct (IH false) as [H1 _].
      rewrite is_blank_eqb in Hc. apply orb_false_elim in Hc as [Hc _].
      split.
      * rewrite contains_cons, H1. unfold two_spaces.
        by rewrite startswith_cons, Hc.
      * intros _. by rewrite startswith_cons, Hc.
Qed.

Lemma collapse_newlines_first (s : string) :
  Py.startswith " " (collapse_newlines 0 s) = Py.startswith " " s.
Proof.
  destruct s as [|c s]; [done|]. cbn [collapse_newlines].
  destruct (is_newline c); cbn [Nat.leb]; by rewrite !startswith_cons, !startswith_nil.
Qed.

Lemma collapse_newlines_no_tab (run : nat) (s : string) :
  Py.contains tab s = false -> Py.contains tab (collapse_newlines run s) = false.
Proof.
  revert run. induction s as [|c s IH]; intros run H; [done|].
  pose proof (contains_tail _ _ _ H) as Htail.
  rewrite contains_cons in H. apply orb_false_elim in H as [Hc _].
  unfold tab in *. rewrite startswith_cons in Hc.
  cbn [collapse_newlines]. destruct (is_newline c).
  - destruct (2 <=? run)%nat; [by apply IH|].
    by rewrite contains_cons, IH, startswith_cons, startswith_nil, orb_false_r
      by done.
  - by rewrite contains_cons, IH, startswith_cons, startswith_nil, orb_false_r
      by done.
Qed.

Lemma collapse_newlines_no_run (run : nat) (s : string) :
  Py.contains two_spaces s = false ->
  Py.contains two_spaces (collapse_newlines run s) = false.
Proof.
  revert run. induction s as [|c s IH]; intros run H; [done|].
  pose proof (contains_tail _ _ _ H) as Htail.
  rewrite contains_cons in H. apply orb_false_elim in H as [Hc _].
  unfold two_spaces in *. rewrite startswith_cons in Hc.
  cbn [collapse_newlines]. destruct (is_newline c) eqn:Hnl.
  - destruct (2 <=? run)%nat; [by apply IH|].
    rewrite contains_cons, IH by done. rewrite orb_false_r.
    apply newline_not_blank in Hnl. rewrite is_blank_eqb in Hnl.
    apply orb_false_elim in Hnl as [Hsp _].
    by rewrite startswith_cons, Hsp.
  - rewrite contains_cons, IH by done. rewrite orb_false_r.
    by rewrite startswith_cons, collapse_newlines_first.
Qed.

Lemma collapse_newlines_no_triple (run : nat) (s : string) :
  Py.contains three_newlines (collapse_newlines run s) = false /\
  ((1 <= run)%nat -> Py.startswith two_newlines (collapse_newlines run s) = false) /\
  ((2 <= run)%nat -> Py.startswith newline (collapse_newlines run s) = false).
Proof.
  assert (forall c x, Py.startswith three_newlines (String c x)
            = Ascii.eqb (ascii_of_N 10) c && Py.startswith two_newlines x) as E3
    by reflexivity.
  assert (forall c x, Py.startswith two_newlines (String c x)
            = Ascii.eqb (ascii_of_N 10) c && Py.startswith newline x) as E2
    by reflexivity.
  assert (forall c x, Py.startswith newline (String c x)
            = Ascii.eqb (ascii_of_N 10) c && Py.startswith "" x) as E1
    by reflexivity.
  revert run. induction s as [|c s IH]; intros run.
  - split_and!; done.
  - cbn [collapse_newlines]. destruct (is_newline c) eqn:Hnl.
    + destruct (2 <=? run)%nat eqn:Hrun.
      * apply Nat.leb_le in Hrun.
        destruct (IH (S run)) as (H1 & H2 & H3).
        split_and!; [done | intros _; apply H2; lia | intros _; apply H3; lia].
      * apply Nat.leb_gt in Hrun.
        destruct (IH (S run)) as (H1 & H2 & H3).
        split_and!.
        -- rewrite contains_cons, H1, orb_false_r, E3, H2 by lia.
           apply andb_false_r.
        -- intros Hge. rewrite E2, H3 by lia. apply andb_false_r.
        -- lia.
    + destruct (IH 0%nat) as (H1 & _ & _).
      rewrite <- is_newline_eqb in Hnl.
      split_and!.
      * by rewrite contains_cons, H1, orb_false_r, E3, Hnl.
      * intros _. by rewrite E2, Hnl.
      * intros _. by rewrite E1, Hnl.
Qed.

(** *** The ends of a stripped string *)

Lemma lstrip_space_first (s : string) (c : ascii) :
  first (lstrip_space s) = Some c -> is_space c = false.
Proof.
  induction s as [|d s IH]; [done|]. simpl.
  destruct (is_space d) eqn:E; [done|]. by intros [= <-].
Qed.

Lemma rstrip_space_first (s : string) (c : ascii) :
  first (rstrip_space s) = Some c -> first s = Some c.
Proof.
  destruct s as [|d s]; [done|]. simpl.
  destruct (rstrip_space s); [|done]. by destruct (is_space d).
Qed.

Lemma rstrip_space_last (s : string) (c : ascii) :
  last (rstrip_space s) = Some c -> is_space c = false.
Proof.
  induction s as [|d s IH]; [done|]. simpl.
  destruct (rstrip_space s) as [|e kept] eqn:E.
  - destruct (is_space d) eqn:Hd; [done|]. by intros [= <-].
  - exact IH.
Qed.

(** *** What [get_text] returns *)

Lemma get_text_blanks (st : state) :
  Py.contains tab (get_text st) = false /\
  Py.contains two_spaces (get_text st) = false.
Proof.
  unfold get_text. split; apply strip_contains.
  - apply collapse_newlines_no_tab, collapse_blanks_no_tab.
  - apply collapse_newlines_no_run, collapse_blanks_no_run.
Qed.

Lemma get_text_newlines (st : state) :
  Py.contains three_newlines (get_text st) = false.
Proof. unfold get_text. apply strip_contains, collapse_newlines_no_triple. Qed.

Lemma get_text_ends (st : state) (c : ascii) :
  first (get_text st) = Some c \/ last (get_text st) = Some c ->
  is_space c = false.
Proof.
  unfold get_text, strip. intros [H|H].
  - by eapply lstrip_space_first, rstrip_space_first.
  - by eapply rstrip_space_last.
Qed.

(** [extract_readable_text] returns the empty string, when the parser
    raises, or what [get_text] returns. *)
Lemma extract_readable_text_cases (W : World) (html : string) :
  extract_readable_text W html = "" \/
  exists st, extract_readable_text W html = get_text st.
Proof.
  unfold extract_readable_text.
  destruct (feed W _); [right; by eexists | by left].
Qed.

(** (X9) The extracted text has no tab and no two spaces in a row, whatever
    the page and whatever the parser reports. *)
Theorem extract_no_blank_runs (W : World) (html : string) :
  Py.contains tab (extract_readable_text W html) = false /\
  Py.contains two_spaces (extract_readable_text W html) = false.
Proof.
  destruct (extract_readable_text_cases W html) as [->|[st ->]]; [done|].
  apply get_text_blanks.
Qed.

(** (X10) The extracted text has no three newlines in a row. *)
Theorem extract_no_blank_lines_run (W : World) (html : string) :
  Py.contains three_newlines (extract_readable_text W html) = false.
Proof.
  destruct (extract_readable_text_cases W html) as [->|[st ->]]; [done|].
  apply get_text_newlines.
Qed.

(** (X11) The extracted text neither starts nor ends with white space. *)
Theorem extract_stripped (W : World) (html : string) (c : ascii) :
  first (extract_readable_text W html) = Some c \/
  last (extract_readable_text W html) = Some c ->
  is_space c = false.
Proof.
  destruct (extract_readable_text_cases W html) as [->|[st ->]].
  - by intros [?|?].
  - apply get_text_ends.
Qed.

Lemma extract_stripped_witness :
  is_space "T" = false.
Proof.
  apply (extract_stripped long_page_world long_page "T"). left.
  vm_compute. reflexivity.
Defined.

(** *** The handlers *)

Lemma skip_tag_not_block (tag : string) : tag ∈ _skip_tags -> tag ∉ block_tags.
Proof.
  unfold _skip_tags, block_tags.
  rewrite !elem_of_union, !elem_of_singleton, !not_elem_of_cons.
  intros H. repeat (destruct H as [H| ->]; [|by split_and!; [..|apply not_elem_of_nil]]).
  subst. by split_and!; [..|apply not_elem_of_nil].
Qed.

(** (X12) Text between the start of a non-content element and its end is
    dropped: after the start tag of [script], [style], [nav], [footer],
    [header], [aside] or [noscript], data adds nothing to the buffer. *)
Theorem skip_region_drops_data (st : state) (tag data : string) :
  tag ∈ _skip_tags ->
  _text (fold_left handle [StartTag tag; Data data] st) = _text st /\
  _skip (fold_left handle [StartTag tag; Data data] st) = true.
Proof.
  intros Htag. cbn [fold_left handle]. unfold handle_starttag, handle_data.
  rewrite bool_decide_eq_true_2 by done. done.
Qed.

Lemma skip_region_drops_data_witness :
  _text (fold_left handle [StartTag "script"; Data "track()"] init) = _text init /\
  _skip (fold_left handle [StartTag "script"; Data "track()"] init) = true.
Proof.
  apply (skip_region_drops_data init "script" "track()").
  eapply (bool_decide_eq_true_1 _). vm_compute. reflexivity.
Defined.

(** (X13) Suppression is one flag, not a depth: inside two nested
    non-content elements, the end of the inner one switches suppression
    off, and data of the outer element that follows is kept. *)
Theorem nested_skip_cleared_early (st : state) (outer inner data : string) :
  outer ∈ _skip_tags -> inner ∈ _skip_tags ->
  _text (fold_left handle
           [StartTag outer; StartTag inner; EndTag inner; Data data] st)
  = (_text st ++ [data])%list.
Proof.
  intros Ho Hi. cbn [fold_left handle].
  unfold handle_starttag, handle_endtag, handle_data.
  rewrite !(bool_decide_eq_true_2 (outer ∈ _)) by done.
  rewrite !(bool_decide_eq_true_2 (inner ∈ _skip_tags)) by done.
  rewrite (bool_decide_eq_false_2 (inner ∈ block_tags))
    by by apply skip_tag_not_block.
  done.
Qed.

Lemma nested_skip_cleared_early_witness :
  _text (fold_left handle
           [StartTag "nav"; StartTag "script"; EndTag "script"; Data "Archive"] init)
  = (_text init ++ ["Archive"])%list.
Proof.
  apply (nested_skip_cleared_early init "nav" "script" "Archive");
    eapply (bool_decide_eq_true_1 _); vm_compute; reflexivity.
Defined.

(** (X14) Suppression drops data only: while it is on, the end tag of a
    block element ([p], [br], [div], [h1] to [h4], [li]) still appends a
    newline, and suppression stays on. *)
Theorem suppressed_block_end_appends_newline (st : state) (tag data : string) :
  _skip st = true -> tag ∈ block_tags ->
  _text (fold_left handle [Data data; EndTag tag] st) = (_text st ++ [newline])%list /\
  _skip (fold_left handle [Data data; EndTag tag] st) = true.
Proof.
  intros Hskip Htag. cbn [fold_left handle].
  unfold handle_data, handle_endtag. rewrite Hskip. cbn [negb].
  assert (tag ∉ _skip_tags) as Hno.
  { intros Hin. by apply skip_tag_not_block in Hin. }
  rewrite (bool_decide_eq_false_2 _ Hno), (bool_decide_eq_true_2 _ Htag).
  by rewrite Hskip.
Qed.

Lemma suppressed_block_end_appends_newline_witness :
  _text (fold_left handle [Data "x"; EndTag "p"]
           {| _text := ["Hello"]; _skip := true |}) = (["Hello"] ++ [newline])%list /\
  _skip (fold_left handle [Data "x"; EndTag "p"]
           {| _text := ["Hello"]; _skip := true |}) = true.
Proof.
  apply (suppressed_block_end_appends_newline
           {| _text := ["Hello"]; _skip := true |} "p" "x"); [reflexivity|].
  eapply (bool_decide_eq_true_1 _). vm_compute. reflexivity.
Defined.

End TextFacts.

(** ** Orchestrator *)

(** *** The work list's entries *)

(** (X15) Every entry of the work list has a non-empty link and no full
    text yet, and no two entries have the same link. *)
Theorem to_fetch_entries (W : World) (min_score max_articles : Z)
    (articles : list Article) :
  let work := to_fetch W min_score max_articles articles in
  Forall (fun r : ref => get_link r.2 <> "" /\ has_full_text r.2 = false) work /\
  NoDup ((fun r : ref => get_link r.2) <$> work).
Proof.
  intros work. split.
  - apply Forall_forall. intros [i a] Hr.
    apply to_fetch_subseteq, unique_subseteq, elem_of_eligible in Hr
      as (_ & (url & Hl & Hne) & Hf & _).
    split; [|done]. unfold get_link. cbn [snd]. by rewrite Hl.
  - assert (forall seen l,
              NoDup ((fun r : ref => get_link r.2) <$> unique_from seen l))
      as Hunique.
    { intros seen l. revert seen.
      induction l as [|a l IH]; intros seen; simpl; [constructor|].
      destruct (seen !! get_link a.2) eqn:Hseen; [apply IH|].
      rewrite fmap_cons. apply NoDup_cons. split; [|apply IH].
      intros (r & Hl & Hr)%list_elem_of_fmap.
      apply unique_from_fresh in Hr as [Hfresh _].
      by rewrite <- Hl, lookup_insert_eq in Hfresh. }
    apply (sublist_NoDup _ ((fun r : ref => get_link r.2) <$>
                              Py.sort sort_key (unique W min_score articles))).
    + rewrite sort_perm. apply Hunique.
    + apply fmap_sublist, list_slice_to_sublist.
Qed.

(** *** The outcome map *)

(** The futures of a run: each holds what [fetch_full_text] returns for its
    URL. *)
Definition fetched (W : World) (max_chars : Z) (future : string * FetchOutcome) : Prop :=
  future.2 = fetch_full_text W future.1 max_chars.

Lemma submit_fetched (W : World) (max_chars : Z) (work : list ref) :
  Forall (fetched W max_chars) (map (submit W max_chars) work).
Proof. apply Forall_fmap, Forall_forall. by intros r _. Qed.

Lemma collect_swap (W : World) (max_chars : Z) (t : Tally)
    (x y : string * FetchOutcome) :
  fetched W max_chars x -> fetched W max_chars y ->
  collect (collect t x) y = collect (collect t y) x.
Proof.
  unfold fetched. intros Hx Hy.
  assert (<[y.1 := y.2]> (<[x.1 := x.2]> (results t)) =
          <[x.1 := x.2]> (<[y.1 := y.2]> (results t))) as Hres.
  { destruct (decide (x.1 = y.1)) as [Heq|Hne].
    - assert (x.2 = y.2) as -> by congruence. by rewrite Heq.
    - by apply insert_insert_ne. }
  unfold collect.
  destruct (nonempty (text x.2)), (nonempty (text y.2));
    cbn [attempted success cf_count results]; rewrite Hres;
    destruct (method x.2), (method y.2); f_equal; lia.
Qed.

(** The order of completion does not show in what the loop collects. *)
Lemma fold_collect_perm (W : World) (max_chars : Z)
    (l l' : list (string * FetchOutcome)) (t : Tally) :
  l ≡ₚ l' -> Forall (fetched W max_chars) l ->
  fold_left collect l t = fold_left collect l' t.
Proof.
  intros Hperm. revert t.
  induction Hperm as [|x l l' Hperm IH|x y l|l l' l'' H1 IH1 H2 IH2]; intros t Hl.
  - done.
  - apply Forall_cons in Hl as [_ Hl]. simpl. by apply IH.
  - apply Forall_cons in Hl as [Hy Hl]. apply Forall_cons in Hl as [Hx _].
    simpl. by rewrite (collect_swap W max_chars t y x).
  - rewrite IH1 by done. apply IH2. by rewrite <- H1.
Qed.

(** The world with another order of completion. *)
Definition with_completion (W : World) (order : list nat) : World :=
  {| urlparse_netloc := urlparse_netloc W;
     urlopen := urlopen W;
     gzip_decompress := gzip_decompress W;
     decode_utf8 := decode_utf8 W;
     search_article := search_article W;
     feed := feed W;
     completion := order |}.

(** (X16) The order in which the fetches complete does not show in the
    result: the collection as mutated, the returned counters and the URLs
    submitted are the same for every order. *)
Theorem enrich_any_completion_order (W : World) (order : list nat)
    (articles : list Article) (min_score max_articles max_chars : Z) :
  enrich_articles (with_completion W order) articles min_score max_articles max_chars =
  enrich_articles W articles min_score max_articles max_chars.
Proof.
  unfold enrich_articles.
  change (to_fetch (with_completion W order) min_score max_articles articles)
    with (to_fetch W min_score max_articles articles).
  destruct (to_fetch W min_score max_articles articles) as [|r work]; [done|].
  change (submit (with_completion W order) max_chars) with (submit W max_chars).
  change (completion (with_completion W order)) with order.
  set (futures := map (submit W max_chars) (r :: work)).
  assert (fold_left collect (as_completed order futures) tally0 =
          fold_left collect (as_completed (completion W) futures) tally0) as ->;
    [|done].
  assert (Forall (fetched W max_chars) futures) as Hf by apply submit_fetched.
  apply (fold_collect_perm W max_chars).
  - by rewrite !as_completed_perm.
  - by rewrite as_completed_perm.
Qed.

(** *** The counters, exactly *)

(** [result["method"] == "cf-markdown"] *)
Definition is_cf_markdown (m : Method) : bool :=
  match m with
  | CfMarkdown => true
  | _ => false
  end.

Lemma fold_collect_counts (l : list (string * FetchOutcome)) (t : Tally) :
  success (fold_left collect l t) =
    success t + Z.of_nat (length (List.filter (fun f => nonempty (text f.2)) l)) /\
  cf_count (fold_left collect l t) =
    cf_count t +
    Z.of_nat (length (List.filter
                        (fun f => nonempty (text f.2) && is_cf_markdown (method f.2)) l)).
Proof.
  revert t. induction l as [|f l IH]; intros t; [simpl; lia|].
  cbn [fold_left List.filter]. destruct (IH (collect t f)) as [-> ->].
  unfold collect.
  destruct (nonempty (text f.2)); cbn [success cf_count andb];
    [destruct (method f.2); cbn [is_cf_markdown length]|]; lia.
Qed.

(** (X17) The returned triple counts the work list: [attempted] is its
    length, [success] the number of its entries whose outcome has a text,
    and [cf_markdown] the number of those whose method is cf-markdown (a
    cf-markdown outcome without text is not counted). *)
Theorem enrich_counts (W : World) (articles : list Article)
    (min_score max_articles max_chars : Z) :
  let outcomes :=
    (fun r : ref => fetch_full_text W (get_link r.2) max_chars)
      <$> to_fetch W min_score max_articles articles in
  returned (enrich_articles W articles min_score max_articles max_chars) =
  (Z.of_nat (length outcomes),
   Z.of_nat (length (List.filter (fun o => nonempty (text o)) outcomes)),
   Z.of_nat (length (List.filter
                       (fun o => nonempty (text o) && is_cf_markdown (method o))
                       outcomes))).
Proof.
  cbv zeta.
  destruct (decide (to_fetch W min_score max_articles articles = [])) as [He|Hne].
  - rewrite (enrich_articles_empty _ _ _ _ _ He), He. reflexivity.
  - rewrite (enrich_articles_nonempty _ _ _ _ _ Hne). cbn [returned].
    set (work := to_fetch W min_score max_articles articles).
    set (futures := map (submit W max_chars) work).
    rewrite (fold_collect_perm W max_chars _ futures)
      by (rewrite ?as_completed_perm; first [done | apply submit_fetched]).
    destruct (fold_collect_counts futures tally0) as [-> ->].
    rewrite fold_collect_attempted. cbn [tally0 attempted success cf_count].
    subst futures. clearbody work. clear Hne.
    rewrite length_map, length_fmap.
    assert (forall p : FetchOutcome -> bool,
              length (List.filter (fun f : string * FetchOutcome => p f.2)
                        (map (submit W max_chars) work)) =
              length (List.filter p
                        ((fun r : ref => fetch_full_text W (get_link r.2) max_chars)
                           <$> work))) as Hcount.
    { intros p. induction work as [|r work IH]; [done|].
      cbn [map fmap list_fmap List.filter submit snd].
      destruct (p _); cbn [length]; by rewrite IH. }
    rewrite (Hcount (fun o => nonempty (text o))).
    rewrite (Hcount (fun o => nonempty (text o) && is_cf_markdown (method o))).
    by rewrite !Z.add_0_l.
Qed.

(** *** What the last loop finds *)

(** The outcome map holds the outcome of every URL submitted. *)
Lemma fold_collect_lookup (W : World) (max_chars : Z)
    (l : list (string * FetchOutcome)) (t : Tally) (url : string) :
  Forall (fetched W max_chars) l ->
  url ∈ l.*1 \/ results t !! url = Some (fetch_full_text W url max_chars) ->
  results (fold_left collect l t) !! url = Some (fetch_full_text W url max_chars).
Proof.
  revert t. induction l as [|f l IH]; intros t Hl Hin.
  - destruct Hin as [Hin|Hin]; [by apply elem_of_nil in Hin|done].
  - apply Forall_cons in Hl as [Hf Hl]. cbn [fold_left]. apply IH; [done|].
    rewrite collect_results.
    destruct (decide (f.1 = url)) as [<-|Hne].
    + right. rewrite lookup_insert_eq. by rewrite Hf.
    + rewrite lookup_insert_ne by done.
      destruct Hin as [Hin|Hin]; [|by right].
      rewrite fmap_cons in Hin. apply elem_of_cons in Hin as [->|Hin]; [done|by left].
Qed.

Lemma apply_result_written (res : gmap string FetchOutcome) (a : Article)
    (o : FetchOutcome) :
  res !! get_link a = Some o -> text o <> "" ->
  link (apply_result res a) = link a /\
  quality_score (apply_result res a) = quality_score a /\
  fields (apply_result res a) !! "full_text" = Some (VStr (text o)) /\
  fields (apply_result res a) !! "full_text_method" = Some (VStr (method_name (method o))) /\
  fields (apply_result res a) !! "full_text_tokens" = Some (VInt (tokens o)).
Proof.
  intros Hres Htext. unfold apply_result, nonempty. rewrite Hres.
  destruct (String.eqb_spec (text o) ""); [done|]. cbn [negb].
  unfold set_field. cbn [link quality_score fields].
  split_and!; [done..| | |].
  - do 2 (rewrite lookup_insert_ne by done). by rewrite lookup_insert_eq.
  - rewrite lookup_insert_ne by done. by rewrite lookup_insert_eq.
  - by rewrite lookup_insert_eq.
Qed.

(** (X18) Every article of the collection whose link is the link of a
    work-list entry with a non-empty outcome text ends with that outcome
    under [full_text], [full_text_method] and [full_text_tokens]: the entry
    itself, and any other article with its link. *)
Theorem enrich_writes_outcome (W : World) (articles : list Article)
    (min_score max_articles max_chars : Z) (i : nat) (a : Article) (r : ref) :
  articles !! i = Some a ->
  r ∈ to_fetch W min_score max_articles articles ->
  get_link r.2 = get_link a ->
  text (fetch_full_text W (get_link a) max_chars) <> "" ->
  exists a',
    articles_after (enrich_articles W articles min_score max_articles max_chars) !! i
      = Some a' /\
    fields a' !! "full_text"
      = Some (VStr (text (fetch_full_text W (get_link a) max_chars))) /\
    fields a' !! "full_text_method"
      = Some (VStr (method_name (method (fetch_full_text W (get_link a) max_chars)))) /\
    fields a' !! "full_text_tokens"
      = Some (VInt (tokens (fetch_full_text W (get_link a) max_chars))).
Proof.
  intros Hi Hr Hl Htext.
  assert (to_fetch W min_score max_articles articles <> []) as Hne.
  { intros He. rewrite He in Hr. by apply elem_of_nil in Hr. }
  rewrite (enrich_articles_nonempty _ _ _ _ _ Hne). cbn [articles_after].
  set (work := to_fetch W min_score max_articles articles) in *.
  set (futures := map (submit W max_chars) work).
  assert (results (fold_left collect (as_completed (completion W) futures) tally0)
            !! get_link a = Some (fetch_full_text W (get_link a) max_chars)) as Hres.
  { apply fold_collect_lookup.
    - rewrite as_completed_perm. apply submit_fetched.
    - left. rewrite as_completed_perm.
      apply list_elem_of_fmap. exists (get_link a, fetch_full_text W (get_link a) max_chars).
      split; [done|]. apply (list_elem_of_fmap (submit W max_chars)).
      exists r. split; [|done]. unfold submit. by rewrite Hl. }
  eexists. split; [by rewrite list_lookup_fmap, Hi|].
  by apply (apply_result_written _ a _ Hres Htext).
Qed.

Lemma enrich_writes_outcome_witness :
  exists a',
    articles_after (enrich_articles markdown_world shared_link_articles 10 15 2000) !! 1%nat
      = Some a' /\
    fields a' !! "full_text"
      = Some (VStr (text (fetch_full_text markdown_world "https://example.com/a" 2000))) /\
    fields a' !! "full_text_method"
      = Some (VStr (method_name
                      (method (fetch_full_text markdown_world "https://example.com/a" 2000)))) /\
    fields a' !! "full_text_tokens"
      = Some (VInt (tokens (fetch_full_text markdown_world "https://example.com/a" 2000))).
Proof.
  apply (enrich_writes_outcome markdown_world shared_link_articles 10 15 2000 1%nat
           (Example.article "https://example.com/a" 12 "again")
           (0%nat, Example.article "https://example.com/a" 12 "first"));
    [reflexivity | | reflexivity | vm_compute; discriminate].
  assert (to_fetch markdown_world 10 15 shared_link_articles =
          [(2%nat, Example.article "https://example.com/b" 20 "other");
           (0%nat, Example.article "https://example.com/a" 12 "first")]) as ->
    by (vm_compute; reflexivity).
  apply elem_of_cons. right. apply elem_of_cons. by left.
Defined.

(** *** What is fetched *)

(** (X19) One fetch is submitted per work-list entry, for its link: no URL
    is fetched twice in a call, and no empty URL is fetched. *)
Theorem enrich_submits_links_once (W : World) (articles : list Article)
    (min_score max_articles max_chars : Z) :
  let run := enrich_articles W articles min_score max_articles max_chars in
  submitted run =
    (fun r : ref => get_link r.2) <$> to_fetch W min_score max_articles articles /\
  NoDup (submitted run) /\
  Forall (fun url => url <> "") (submitted run).
Proof.
  cbv zeta.
  assert (submitted (enrich_articles W articles min_score max_articles max_chars) =
          (fun r : ref => get_link r.2) <$> to_fetch W min_score max_articles articles)
    as Hsub.
  { destruct (decide (to_fetch W min_score max_articles articles = [])) as [He|Hne].
    - by rewrite (enrich_articles_empty _ _ _ _ _ He), He.
    - rewrite (enrich_articles_nonempty _ _ _ _ _ Hne). cbn [submitted].
      induction (to_fetch W min_score max_articles articles) as [|r work IH]; [done|].
      cbn [map fmap list_fmap submit fst]. f_equal.
      destruct work; [done|]. by apply IH. }
  rewrite Hsub.
  destruct (to_fetch_entries W min_score max_articles articles) as [Hentries Hnodup].
  split_and!; [done | done |].
  apply Forall_fmap. eapply Forall_impl; [exact Hentries|]. by intros r [? _].
Qed.

(** *** A second call *)

Lemma apply_result_enriched (res : gmap string FetchOutcome) (a : Article) :
  apply_result res a = a \/ has_full_text (apply_result res a) = true.
Proof.
  destruct (res !! get_link a) as [o|] eqn:Hres.
  - destruct (String.eqb_spec (text o) "") as [He|Hne].
    + left. apply apply_result_untouched. intros r Hr. congruence.
    + right. destruct (apply_result_written res a o Hres Hne) as (_ & _ & Hf & _).
      unfold has_full_text. rewrite Hf. cbn [truthy].
      by destruct (String.eqb_spec (text o) "").
  - left. apply apply_result_untouched. intros r Hr. congruence.
Qed.

(** (X20) An article that a call has written is not selected by a later
    call on the same collection, whatever the later call's thresholds and
    network: every entry of the later work list is an article the first
    call left as it was. *)
Theorem enrich_again_skips_enriched (W W' : World) (articles : list Article)
    (min_score max_articles max_chars min_score' max_articles' : Z) (r : ref) :
  r ∈ to_fetch W' min_score' max_articles'
        (articles_after (enrich_articles W articles min_score max_articles max_chars)) ->
  articles !! r.1 = Some r.2.
Proof.
  intros Hr.
  apply to_fetch_subseteq, unique_subseteq in Hr. destruct r as [i a'].
  apply elem_of_eligible in Hr as (Hi & _ & Hf & _). cbn [fst snd].
  destruct (decide (to_fetch W min_score max_articles articles = [])) as [He|Hne].
  - by rewrite (enrich_articles_empty _ _ _ _ _ He) in Hi.
  - rewrite (enrich_articles_nonempty _ _ _ _ _ Hne) in Hi. cbn [articles_after] in Hi.
    change (map ?f ?l) with (f <$> l) in Hi.
    rewrite list_lookup_fmap in Hi.
    destruct (articles !! i) as [a|]; [|done]. injection Hi as <-.
    destruct (apply_result_enriched
                (results (fold_left collect
                   (as_completed (completion W)
                      (map (submit W max_chars)
                         (to_fetch W min_score max_articles articles))) tally0)) a)
      as [->|Hfull]; [done|congruence].
Qed.

Lemma enrich_again_skips_enriched_witness :
  three_articles !! 2%nat = Some (Example.article "https://example.com/c" 11 "C").
Proof.
  apply (enrich_again_skips_enriched markdown_world markdown_world three_articles
           10 2 2000 10 2 (2%nat, Example.article "https://example.com/c" 11 "C")).
  assert (to_fetch markdown_world 10 2
            (articles_after (enrich_articles markdown_world three_articles 10 2 2000)) =
          [(2%nat, Example.article "https://example.com/c" 11 "C")]) as ->
    by (vm_compute; reflexivity).
  by apply list_elem_of_singleton.
Defined.

(** ** Domain classifier *)

(** (X21) No domain starts with [w] or with a dot, so no URL has the domain
    [www.latent.space]: that entry of the blog allow-list matches nothing
    (the host [www.latent.space] has the domain [latent.space]). *)
Theorem get_domain_never_www (W : World) (url : string) :
  (forall c rest, get_domain W url = String c rest -> c <> "w"%char /\ c <> "."%char) /\
  get_domain W url <> "www.latent.space".
Proof.
  assert (forall c rest, get_domain W url = String c rest ->
                         c <> "w"%char /\ c <> "."%char) as Hhead.
  { intros c rest H. apply get_domain_head in H.
    split; intros ->; discriminate. }
  split; [done|].
  intros H. destruct (Hhead _ _ H) as [Hw _]. by apply Hw.
Qed.

(** ** Batch selector *)

(** (X22) The cut keeps the best: no deduplicated candidate left out of the
    work list has a higher score than an entry of the work list. *)
Theorem to_fetch_keeps_best (W : World) (min_score max_articles : Z)
    (articles : list Article) (r s : ref) :
  r ∈ to_fetch W min_score max_articles articles ->
  s ∈ unique W min_score articles ->
  s ∉ to_fetch W min_score max_articles articles ->
  score s.2 <= score r.2.
Proof.
  unfold to_fetch, Py.list_slice_to.
  set (sorted := Py.sort sort_key (unique W min_score articles)).
  set (k := if 0 <=? max_articles then Z.to_nat max_articles
            else Z.to_nat (Z.of_nat (length sorted) + max_articles)).
  assert ((if 0 <=? max_articles then take (Z.to_nat max_articles) sorted
           else take (Z.to_nat (Z.of_nat (length sorted) + max_articles)) sorted)
          = take k sorted) as -> by (unfold k; by destruct (0 <=? max_articles)).
  intros Hr Hs Hout.
  assert (StronglySorted ranked (take k sorted ++ drop k sorted)%list) as Hsorted.
  { rewrite take_drop. apply sort_ranked, unique_earlier. }
  assert (s ∈ drop k sorted) as Hdrop.
  { assert (s ∈ (take k sorted ++ drop k sorted)%list) as Hin
      by (rewrite take_drop; unfold sorted; by rewrite sort_perm).
    apply elem_of_app in Hin as [Hin|Hin]; [by destruct Hout|done]. }
  by destruct (StronglySorted_app_1_elem_of _ _ _ r s Hsorted Hr Hdrop).
Qed.

Lemma to_fetch_keeps_best_witness :
  score (Example.article "https://example.com/c" 11 "C")
  <= score (Example.article "https://example.com/b" 12 "B").
Proof.
  apply (to_fetch_keeps_best markdown_world 10 2 three_articles
           (1%nat, Example.article "https://example.com/b" 12 "B")
           (2%nat, Example.article "https://example.com/c" 11 "C")).
  - assert (to_fetch markdown_world 10 2 three_articles =
            [(0%nat, Example.article "https://example.com/a" 15 "A");
             (1%nat, Example.article "https://example.com/b" 12 "B")]) as ->
      by (vm_compute; reflexivity).
    apply elem_of_cons. right. by apply list_elem_of_singleton.
  - assert (unique markdown_world 10 three_articles =
            [(0%nat, Example.article "https://example.com/a" 15 "A");
             (1%nat, Example.article "https://example.com/b" 12 "B");
             (2%nat, Example.article "https://example.com/c" 11 "C")]) as ->
      by (vm_compute; reflexivity).
    do 2 (apply elem_of_cons; right). by apply list_elem_of_singleton.
  - assert (to_fetch markdown_world 10 2 three_articles =
            [(0%nat, Example.article "https://example.com/a" 15 "A");
             (1%nat, Example.article "https://example.com/b" 12 "B")]) as ->
      by (vm_compute; reflexivity).
    rewrite !not_elem_of_cons.
    split_and!; [intros [=] | intros [=] | apply not_elem_of_nil].
Defined.
